(** * jenkins-cli: name resolution, service extraction and the local caches

    A shallow embedding of the resolver and cache functions of
    [jenkins_cli/test_collateral.py], and the properties the specification
    states about them.

    Modelling conventions.
    - A Python [str] is a Rocq [string]: the sequence of its code points,
      each below 256.  On such strings [str.lower] acts character by
      character (see [lower_char]).
    - Python lists are Rocq lists.
    - A Python call either returns a value or raises: [result A].  The
      partial built-ins the code relies on ([l[0]], [min], [max],
      [list.remove]) raise on the inputs on which Python raises.
    - The two cache files are explicit state: [file D] says what the code
      can observe of a file, and the outcome of each attempt to write is an
      explicit argument. *)

From Stdlib Require Import List String Ascii Bool Arith ZArith Lia.
Import ListNotations.

Local Open Scope string_scope.
Local Open Scope list_scope.

(** ** Exceptions *)

(** The exception classes that occur in the modelled code, with Python's
    class hierarchy. *)
Inductive pyclass : Type :=
| Exception
| LookupError
| IndexError
| KeyError
| ValueError
| JSONDecodeError
| TypeError
| AttributeError
| OSError.

Definition pyclass_eqb (c d : pyclass) : bool :=
  match c, d with
  | Exception, Exception | LookupError, LookupError | IndexError, IndexError
  | KeyError, KeyError | ValueError, ValueError
  | JSONDecodeError, JSONDecodeError | TypeError, TypeError
  | AttributeError, AttributeError | OSError, OSError => true
  | _, _ => false
  end.

(** Direct base class. *)
Definition base (c : pyclass) : option pyclass :=
  match c with
  | Exception => None
  | IndexError | KeyError => Some LookupError
  | JSONDecodeError => Some ValueError
  | LookupError | ValueError | TypeError | AttributeError | OSError =>
      Some Exception
  end.

(** [issubclass c d]; the hierarchy has depth two. *)
Definition issubclass (c d : pyclass) : bool :=
  pyclass_eqb c d
  || match base c with
     | None => false
     | Some c1 =>
         pyclass_eqb c1 d
         || match base c1 with
            | None => false
            | Some c2 => pyclass_eqb c2 d
            end
     end.

Inductive result (A : Type) : Type :=
| Ok (a : A)
| Raise (e : pyclass).

Arguments Ok {A} a.
Arguments Raise {A} e.

Definition bind {A B : Type} (r : result A) (k : A -> result B) : result B :=
  match r with
  | Ok a => k a
  | Raise e => Raise e
  end.

Notation "x <- c1 ;; c2" := (bind c1 (fun x => c2))
  (at level 61, c1 at next level, right associativity).

(** [try: body  except (handlers): handler] *)
Definition try_except {A : Type} (body : result A) (handlers : list pyclass)
    (handler : result A) : result A :=
  match body with
  | Ok a => Ok a
  | Raise e => if existsb (issubclass e) handlers then handler else Raise e
  end.

(** ** Strings *)

(** [str.lower] on one code point below 256: the ASCII capitals and the
    Latin-1 capitals (U+00C0..U+00DE except the multiplication sign U+00D7)
    move up by 32. *)
Definition lower_char (c : ascii) : ascii :=
  let n := nat_of_ascii c in
  if (((65 <=? n) && (n <=? 90))
      || ((192 <=? n) && (n <=? 222) && negb (n =? 215)))%nat
  then ascii_of_nat (n + 32)
  else c.

Fixpoint lower (s : string) : string :=
  match s with
  | EmptyString => EmptyString
  | String c s' => String (lower_char c) (lower s')
  end.

(** [s.startswith(p)] *)
Fixpoint startswith (s p : string) {struct p} : bool :=
  match p, s with
  | EmptyString, _ => true
  | String _ _, EmptyString => false
  | String a p', String b s' => Ascii.eqb a b && startswith s' p'
  end.

(** [p in s] for strings: [p] occurs in [s] as a contiguous substring. *)
Fixpoint str_in (p s : string) : bool :=
  startswith s p
  || match s with
     | EmptyString => false
     | String _ s' => str_in p s'
     end.

(** [s[n:]] *)
Fixpoint drop (n : nat) (s : string) : string :=
  match n, s with
  | O, _ => s
  | S _, EmptyString => EmptyString
  | S n', String _ s' => drop n' s'
  end.

(** [s.endswith(p)] *)
Definition endswith (s p : string) : bool :=
  (String.length p <=? String.length s)%nat
  && String.eqb (drop (String.length s - String.length p) s) p.

(** [s.replace(old, new)] for a non-empty [old]: the occurrences of [old]
    are found scanning from the left and never overlap.  [skip] counts the
    characters of an occurrence just replaced that are still to be passed
    over. *)
Fixpoint replace_from (skip : nat) (old new s : string) : string :=
  match s with
  | EmptyString => EmptyString
  | String c s' =>
      match skip with
      | S k => replace_from k old new s'
      | O =>
          if startswith s old
          then new ++ replace_from (String.length old - 1) old new s'
          else String c (replace_from 0 old new s')
      end
  end.

(** With an empty [old] Python puts [new] before every character and at
    the end. *)
Fixpoint replace_empty (new s : string) : string :=
  match s with
  | EmptyString => new
  | String c s' => new ++ String c (replace_empty new s')
  end.

Definition replace (s old new : string) : string :=
  match old with
  | EmptyString => replace_empty new s
  | String _ _ => replace_from 0 old new s
  end.

(** [not s]: a string is falsy exactly when it is empty. *)
Definition str_not (s : string) : bool :=
  match s with
  | EmptyString => true
  | String _ _ => false
  end.

(** ** Lists *)

(** [not l] *)
Definition list_not {A : Type} (l : list A) : bool :=
  match l with
  | [] => true
  | _ :: _ => false
  end.

(** [l[0]] *)
Definition item0 {A : Type} (l : list A) : result A :=
  match l with
  | [] => Raise IndexError
  | x :: _ => Ok x
  end.

(* The loop [for x in l: if test(x): return x] is [find test l]: the first
   element that passes, or [None] when the loop runs to its end.  The loop
   that appends to a fresh list every element passing [test] is
   [filter test l]. *)

(** [min(l, key=len)] keeps the earliest of the elements of least length:
    the running minimum is replaced only by a strictly shorter string. *)
Fixpoint min_from (best : string) (l : list string) : string :=
  match l with
  | [] => best
  | x :: l' =>
      if (String.length x <? String.length best)%nat
      then min_from x l' else min_from best l'
  end.

Definition min_by_len (l : list string) : result string :=
  match l with
  | [] => Raise ValueError
  | x :: l' => Ok (min_from x l')
  end.

(** [max(l, key=len)] keeps the earliest of the elements of greatest
    length. *)
Fixpoint max_from (best : string) (l : list string) : string :=
  match l with
  | [] => best
  | x :: l' =>
      if (String.length best <? String.length x)%nat
      then max_from x l' else max_from best l'
  end.

Definition max_by_len (l : list string) : result string :=
  match l with
  | [] => Raise ValueError
  | x :: l' => Ok (max_from x l')
  end.

(** [x in l] for a list of strings *)
Definition list_in (x : string) (l : list string) : bool :=
  existsb (String.eqb x) l.

(** [l.remove(x)] deletes the first element equal to [x] and raises
    [ValueError] when there is none. *)
Fixpoint list_remove (x : string) (l : list string) : result (list string) :=
  match l with
  | [] => Raise ValueError
  | y :: l' =>
      if String.eqb y x then Ok l'
      else (r <- list_remove x l' ;; Ok (y :: r))
  end.

(** ** Name Resolver, service mode *)

(** [find_matching_service(partial_name, available_services)],
    lines 204-234. *)
Definition find_matching_service (partial_name : string)
    (available_services : list string) : result (option string) :=
  if str_not partial_name || list_not available_services then Ok None
  else
    (* Case 1: exact match *)
    match find
            (fun service => String.eqb (lower service) (lower partial_name))
            available_services with
    | Some service => Ok (Some service)
    | None =>
        (* Case 2: service contains the partial name *)
        let matches :=
          filter (fun service => str_in (lower partial_name) (lower service))
                  available_services in
        if (List.length matches =? 1)%nat
        then (m <- item0 matches ;; Ok (Some m))
        else
          match find
                  (fun m => startswith (lower m) (lower partial_name))
                  matches with
          | Some m => Ok (Some m)
          | None =>
              if negb (list_not matches)
              then (m <- min_by_len matches ;; Ok (Some m))
              else Ok None
          end
    end.

(** ** Name Resolver, branch mode *)

(** [find_matching_branch(partial_name)], lines 317-377.
    [cached_branches] is the list [get_cached_branches()] returned and
    [available_branches] the list [get_available_branches()] returns. *)
Definition find_matching_branch (cached_branches available_branches : list string)
    (partial_name : string) : result string :=
  if str_not partial_name then Ok "dev"
  else
    match find
            (fun branch => String.eqb (lower branch) (lower partial_name))
            cached_branches with
    | Some branch => Ok branch
    | None =>
    let matches :=
      filter (fun branch => str_in (lower partial_name) (lower branch))
              cached_branches in
    if (List.length matches =? 1)%nat then item0 matches
    else
    match find (fun m => startswith (lower m) (lower partial_name))
                      matches with
    | Some m => Ok m
    | None =>
    if negb (list_not matches) then item0 matches
    else
    (* fall back to the git branches *)
    match find
            (fun branch => String.eqb (lower branch) (lower partial_name))
            available_branches with
    | Some branch => Ok branch
    | None =>
    let matches :=
      filter (fun branch => str_in (lower partial_name) (lower branch))
              available_branches in
    if (List.length matches =? 1)%nat then item0 matches
    else
    match find (fun m => startswith (lower m) (lower partial_name))
                      matches with
    | Some m => Ok m
    | None =>
    if negb (list_not matches) then min_by_len matches
    else Ok partial_name
    end end end end.

(** The list [get_available_branches()] returns when [git] gives nothing,
    line 287. *)
Definition default_branches : list string :=
  ["dev"; "main"; "master"; "develop"; "release"].

(** ** The build command: choice of the job *)

(** A job entry as the Jenkins listing gives it. *)
Record job : Type := mkJob { name : string; url : string; color : string }.

(** What the first part of [build] does: it reports that there is no build
    job, or that none matches (and lists the build jobs), or goes on with
    [selected_job]. *)
Inductive selection : Type :=
| NoBuildJobs
| NoMatchingJob (build_jobs : list job)
| Selected (selected_job : job).

(** Lines 747-751. *)
Definition build_jobs_of (jobs : list job) : list job :=
  filter (fun job => str_in "build" (lower (name job))
                     && negb (endswith (lower (name job)) "-report"))
         jobs.

(** Lines 757-823 of [build]. *)
Definition build_selected_job (jobs : list job) (partial_service_name : string)
    : result selection :=
  let build_jobs := build_jobs_of jobs in
  if list_not build_jobs then Ok NoBuildJobs
  else
    let search_name := lower partial_service_name in
    let matching_jobs :=
      filter (fun job => str_in search_name (lower (name job))) build_jobs in
    if list_not matching_jobs then Ok (NoMatchingJob build_jobs)
    else
      let matching_jobs :=
        if (1 <? List.length matching_jobs)%nat then
          let exact_matches :=
            filter (fun job => String.eqb (lower (name job)) search_name)
                   matching_jobs in
          if negb (list_not exact_matches) then exact_matches
          else
            let prefix_matches :=
              filter (fun job => startswith (lower (name job))
                                            ("test-collateral-" ++ search_name))
                     matching_jobs in
            if negb (list_not prefix_matches) then prefix_matches
            else
              let start_matches :=
                filter (fun job => startswith (lower (name job)) search_name)
                       matching_jobs in
              if negb (list_not start_matches) then start_matches
              else matching_jobs
        else matching_jobs in
      selected_job <- item0 matching_jobs ;;
      Ok (Selected selected_job).

(** ** The build command: service name of the chosen job *)

(** Lines 833-849 of [build]: the value of [service_name] for the job name
    [build_job_name] and the service list [AVAILABLE_SERVICES]. *)
Definition build_service_name (AVAILABLE_SERVICES : list string)
    (build_job_name : string) : result string :=
  let service_name := build_job_name in
  let matched_services :=
    filter (fun available_service => str_in available_service build_job_name)
           AVAILABLE_SERVICES in
  if negb (list_not matched_services) then max_by_len matched_services
  else if startswith build_job_name "test-collateral-"
  then Ok (replace (replace build_job_name "test-collateral-" "") "-build" "")
  else Ok service_name.

(** ** Cache files *)

(** What the code can observe of a file whose parsed content, when it is
    JSON, is described by [D]. *)
Inductive file (D : Type) : Type :=
| Missing                 (* [os.path.exists] is false *)
| Unreadable              (* exists; [open] raises [OSError] *)
| Malformed               (* readable; [json.load] raises [JSONDecodeError] *)
| Parsed (document : D).  (* readable JSON *)

Arguments Missing {D}.
Arguments Unreadable {D}.
Arguments Malformed {D}.
Arguments Parsed {D} document.

(** How an [open(path, 'w')] followed by [json.dump] ends. *)
Inductive write_outcome : Type :=
| Written      (* the file holds the new document *)
| Refused      (* [open] raised: the file is as it was *)
| Torn.        (* the write broke off: the file no longer parses *)

(** A file that cannot be read stays so, whatever is written to it. *)
Definition write {D : Type} (w : write_outcome) (document : D) (f : file D)
    : file D :=
  match f with
  | Unreadable => Unreadable
  | _ =>
      match w with
      | Written => Parsed document
      | Refused => f
      | Torn => Malformed
      end
  end.

(** [open] followed by [json.load] *)
Definition open_and_parse {D : Type} (f : file D) : result D :=
  match f with
  | Missing => Raise OSError
  | Unreadable => Raise OSError
  | Malformed => Raise JSONDecodeError
  | Parsed d => Ok d
  end.

(** [os.path.exists] *)
Definition path_exists {D : Type} (f : file D) : bool :=
  match f with
  | Missing => false
  | _ => true
  end.

(** *** Job cache *)

(** Instants and durations in microseconds, the resolution of [datetime]. *)
Definition CACHE_DURATION_MINUTES : Z := 1440.

Definition minutes (m : Z) : Z := m * 60 * 1000000.

(** The JSON value under ['timestamp'], as [datetime.fromisoformat] and the
    subtraction from [datetime.now()] treat it. *)
Inductive timestamp_value : Type :=
| NaiveTime (t : Z)   (* ISO text without UTC offset, denoting instant [t] *)
| AwareTime (t : Z)   (* ISO text with UTC offset: subtraction raises *)
| NotIsoText          (* any other string: [ValueError] *)
| NotText.            (* not a string: [TypeError] *)

(** [datetime.now() - cache_time] *)
Definition elapsed (now : Z) (cache_time : timestamp_value) : result Z :=
  match cache_time with
  | NaiveTime t => Ok (now - t)%Z
  | _ => Raise TypeError
  end.

Section JobCache.

(** The value stored under ['jobs']. *)
Variable payload : Type.

(** The JSON document of the job cache. *)
Inductive jobs_document : Type :=
| JobsNotDict         (* a list, string, number, boolean or null *)
| JobsDict (timestamp : option timestamp_value) (jobs : option payload).

(** [cache_data['timestamp']] followed by [datetime.fromisoformat]. *)
Definition cache_time_of (cache_data : jobs_document) : result timestamp_value :=
  match cache_data with
  | JobsNotDict => Raise TypeError
  | JobsDict None _ => Raise KeyError
  | JobsDict (Some NotText) _ => Raise TypeError
  | JobsDict (Some NotIsoText) _ => Raise ValueError
  | JobsDict (Some ts) _ => Ok ts
  end.

(** [cache_data['jobs']] *)
Definition jobs_of (cache_data : jobs_document) : result payload :=
  match cache_data with
  | JobsDict _ (Some jobs) => Ok jobs
  | JobsDict _ None => Raise KeyError
  | JobsNotDict => Raise TypeError
  end.

(** [load_jobs_cache()], lines 66-82, when the clock reads [now]. *)
Definition load_jobs_cache (now : Z) (f : file jobs_document)
    : result (option payload) :=
  try_except
    (if negb (path_exists f) then Ok None
     else
       cache_data <- open_and_parse f ;;
       cache_time <- cache_time_of cache_data ;;
       age <- elapsed now cache_time ;;
       if (minutes CACHE_DURATION_MINUTES <? age)%Z then Ok None
       else (jobs <- jobs_of cache_data ;; Ok (Some jobs)))
    [JSONDecodeError; KeyError; ValueError]
    (Ok None).

(** [save_jobs_cache(jobs)], lines 84-95: every exception is swallowed, so
    the call returns whatever becomes of the write. *)
Definition save_jobs_cache (w : write_outcome) (now : Z) (jobs : payload)
    (f : file jobs_document) : file jobs_document :=
  let cache_data := JobsDict (Some (NaiveTime now)) (Some jobs) in
  write w cache_data f.

End JobCache.

Arguments JobsNotDict {payload}.
Arguments JobsDict {payload}.

(** *** Branch cache *)

(** The JSON document of the branch cache. *)
Inductive branches_document : Type :=
| BranchesNotDict                               (* no [.get] method *)
| BranchesDict (branches : option (list string)).

(** [load_branch_cache()], lines 119-130. *)
Definition load_branch_cache (f : file branches_document)
    : result (list string) :=
  try_except
    (if negb (path_exists f) then Ok []
     else
       cache_data <- open_and_parse f ;;
       match cache_data with
       | BranchesNotDict => Raise AttributeError
       | BranchesDict None => Ok []
       | BranchesDict (Some branches) => Ok branches
       end)
    [JSONDecodeError; KeyError; ValueError]
    (Ok []).

(** [save_branch_cache(branches)], lines 132-142. *)
Definition save_branch_cache (w : write_outcome) (branches : list string)
    (f : file branches_document) : file branches_document :=
  let cache_data := BranchesDict (Some branches) in
  write w cache_data f.

(** [add_branch_to_cache(branch_name)], lines 144-161; [w] is the outcome
    of the write it attempts. *)
Definition add_branch_to_cache (w : write_outcome) (branch_name : string)
    (f : file branches_document) : result (file branches_document) :=
  if String.eqb (lower branch_name) "dev" then Ok f
  else
    cached_branches <- load_branch_cache f ;;
    cached_branches <-
      (if list_in branch_name cached_branches
       then list_remove branch_name cached_branches
       else Ok cached_branches) ;;
    let cached_branches := branch_name :: cached_branches in
    let cached_branches := firstn 50 cached_branches in
    Ok (save_branch_cache w cached_branches f).

(** [get_cached_branches()], lines 163-165. *)
Definition get_cached_branches (f : file branches_document)
    : result (list string) :=
  load_branch_cache f.

(** A sequence of calls of [add_branch_to_cache], each of which writes. *)
Fixpoint add_branches (names : list string) (f : file branches_document)
    : result (file branches_document) :=
  match names with
  | [] => Ok f
  | n :: names' => f' <- add_branch_to_cache Written n f ;; add_branches names' f'
  end.

(** * The rest of the module *)

(** ** Slices *)

(** [l[:stop]] *)
Definition slice_to {A : Type} (stop : Z) (l : list A) : list A :=
  if (stop <? 0)%Z
  then firstn (List.length l - Z.to_nat (- stop)) l
  else firstn (Z.to_nat stop) l.

(** [l[start:]] *)
Definition slice_from {A : Type} (start : Z) (l : list A) : list A :=
  if (start <? 0)%Z
  then skipn (List.length l - Z.to_nat (- start)) l
  else skipn (Z.to_nat start) l.

(** ** Service suggestions *)

(** The loop
    [for x in l: if test(x) and x not in matches: matches.append(x)]. *)
Definition append_new (test : string -> bool) (l matches : list string)
    : list string :=
  fold_left
    (fun matches x =>
       if test x && negb (list_in x matches) then matches ++ [x]
       else matches)
    l matches.

(** [get_service_suggestions(partial_name, max_suggestions)],
    lines 236-259, over the service list [AVAILABLE_SERVICES]. *)
Definition get_service_suggestions (AVAILABLE_SERVICES : list string)
    (partial_name : string) (max_suggestions : Z) : list string :=
  if str_not partial_name then slice_to max_suggestions AVAILABLE_SERVICES
  else
    let partial_lower := lower partial_name in
    let matches :=
      filter (fun service => String.eqb (lower service) partial_lower)
             AVAILABLE_SERVICES in
    let matches :=
      append_new (fun service => startswith (lower service) partial_lower)
                 AVAILABLE_SERVICES matches in
    let matches :=
      append_new (fun service => str_in partial_lower (lower service))
                 AVAILABLE_SERVICES matches in
    slice_to max_suggestions matches.

(** ** Available branches *)

(** [str.isspace] on one code point below 256. *)
Definition isspace (c : ascii) : bool :=
  let n := nat_of_ascii c in
  (((9 <=? n) && (n <=? 13)) || ((28 <=? n) && (n <=? 32))
   || (n =? 133) || (n =? 160))%nat.

Fixpoint lstrip (s : string) : string :=
  match s with
  | EmptyString => EmptyString
  | String c s' => if isspace c then lstrip s' else s
  end.

Fixpoint rstrip (s : string) : string :=
  match s with
  | EmptyString => EmptyString
  | String c s' =>
      match rstrip s' with
      | EmptyString => if isspace c then EmptyString else String c EmptyString
      | r => String c r
      end
  end.

(** [s.strip()] *)
Definition strip (s : string) : string := rstrip (lstrip s).

(** How [subprocess.run(['git', 'branch', '-a'], ...)] ends: with one of the
    exceptions the handler of [get_available_branches] names, or with a
    return code and the lines of the output.  Other exceptions leave the
    function and are not modelled. *)
Inductive git_run : Type :=
| GitCaught
| GitCompleted (returncode : Z) (stdout_lines : list string).

(** Lines 298-303: the branch name read off one line. *)
Definition branch_of_line (line : string) : string :=
  let branch := strip line in
  let branch :=
    if startswith branch "*" then strip (drop 1 branch) else branch in
  let branch :=
    if startswith branch "remotes/origin/"
    then strip (drop (String.length "remotes/origin/") branch)
    else branch in
  branch.

(** [get_available_branches()], lines 279-315. *)
Definition get_available_branches (git : git_run) : list string :=
  match git with
  | GitCaught => default_branches
  | GitCompleted returncode stdout_lines =>
      if (returncode =? 0)%Z then
        let branches :=
          fold_left
            (fun branches line =>
               let branch := branch_of_line line in
               if negb (str_not branch) && negb (list_in branch branches)
                  && negb (endswith branch "/HEAD")
               then branches ++ [branch]
               else branches)
            stdout_lines [] in
        if negb (list_not branches) then branches else default_branches
      else default_branches
  end.

(** ** Branch mode with its two calls *)

(** How the call [get_available_branches()] ends: with an exception that
    its handler does not name, or as [git_run] says. *)
Inductive git_call : Type :=
| GitRaises (e : pyclass)
| GitRuns (git : git_run).

Definition get_available_branches_call (g : git_call) : result (list string) :=
  match g with
  | GitRaises e => Raise e
  | GitRuns git => Ok (get_available_branches git)
  end.

(** [find_matching_branch(partial_name)], lines 317-377, with the call of
    [get_cached_branches()] on line 320 and the call of
    [get_available_branches()] on line 350; [f] is the branch cache file. *)
Definition find_matching_branch_call (f : file branches_document)
    (g : git_call) (partial_name : string) : result string :=
  cached_branches <- get_cached_branches f ;;
  if str_not partial_name then Ok "dev"
  else
    match find
            (fun branch => String.eqb (lower branch) (lower partial_name))
            cached_branches with
    | Some branch => Ok branch
    | None =>
    let matches :=
      filter (fun branch => str_in (lower partial_name) (lower branch))
             cached_branches in
    if (List.length matches =? 1)%nat then item0 matches
    else
    match find (fun m => startswith (lower m) (lower partial_name))
               matches with
    | Some m => Ok m
    | None =>
    if negb (list_not matches) then item0 matches
    else
    available_branches <- get_available_branches_call g ;;
    match find
            (fun branch => String.eqb (lower branch) (lower partial_name))
            available_branches with
    | Some branch => Ok branch
    | None =>
    let matches :=
      filter (fun branch => str_in (lower partial_name) (lower branch))
             available_branches in
    if (List.length matches =? 1)%nat then item0 matches
    else
    match find (fun m => startswith (lower m) (lower partial_name))
               matches with
    | Some m => Ok m
    | None =>
    if negb (list_not matches) then min_by_len matches
    else Ok partial_name
    end end end end.

(** ** Jobs from the cache or from Jenkins *)

(** What [server.get_job_info(BASE_FOLDER)] does: it raises, or returns a
    falsy value, or returns a dictionary with or without ['jobs']. *)
Inductive folder_answer : Type :=
| InfoRaises
| InfoFalsy
| InfoDict (jobs : option (list job)).

(** [get_jenkins_client()] leaves the process with [sys.exit(1)] or returns
    a server. *)
Inductive jenkins : Type :=
| Unreachable
| Connected (folder_info : folder_answer).

Inductive outcome (A : Type) : Type :=
| Returns (a : A)
| Raises (e : pyclass)
| Exits.

Arguments Returns {A} a.
Arguments Raises {A} e.
Arguments Exits {A}.

(** [get_jobs(force_refresh)], lines 97-117.  The clock reads [now] when
    the cache is read and [later] when it is written; the result comes with
    the cache file as the call leaves it. *)
Definition get_jobs (force_refresh : bool) (now later : Z)
    (w : write_outcome) (server : jenkins)
    (f : file (jobs_document (list job)))
    : outcome (list job * file (jobs_document (list job))) :=
  let fetch :=
    match server with
    | Unreachable => Exits
    | Connected InfoRaises => Returns ([], f)
    | Connected InfoFalsy => Returns ([], f)
    | Connected (InfoDict jobs) =>
        let jobs := match jobs with Some jobs => jobs | None => [] end in
        Returns (jobs, save_jobs_cache (list job) w later jobs f)
    end in
  if negb force_refresh then
    match load_jobs_cache (list job) now f with
    | Raise e => Raises e
    | Ok (Some cached_jobs) => Returns (cached_jobs, f)
    | Ok None => fetch
    end
  else fetch.

(** [cache --clear] and [cache --clear-branches], lines 574-592: the file
    is removed when it exists; [removed] says whether [os.remove]
    succeeded. *)
Definition cache_clear {D : Type} (removed : bool) (f : file D) : file D :=
  if path_exists f then (if removed then Missing else f) else f.

(** ** The job list *)

(** [click.Choice(['scale', 'build', 'deploy'])] *)
Inductive job_type : Type := Scale | Build | Deploy.

Definition type_word (t : job_type) : string :=
  match t with
  | Scale => "scale"
  | Build => "build"
  | Deploy => "deploy"
  end.

(** Lines 400-413 of [jobs]. *)
Definition filtered_jobs (type : option job_type) (jobs : list job)
    : list job :=
  filter
    (fun job =>
       match type with
       | Some t => str_in (type_word t) (lower (name job))
       | None => true
       end)
    jobs.

(** [status_map.get(color)], lines 434-443. *)
Definition status_map (color : string) : option string :=
  if String.eqb color "blue" then Some "Success"
  else if String.eqb color "green" then Some "Success"
  else if String.eqb color "red" then Some "Failed"
  else if String.eqb color "yellow" then Some "Unstable"
  else if String.eqb color "grey" then Some "Not Built"
  else if String.eqb color "disabled" then Some "Disabled"
  else if String.eqb color "aborted" then Some "Aborted"
  else if String.eqb color "notbuilt" then Some "Not Built"
  else None.

Definition get_or (default : string) (o : option string) : string :=
  match o with
  | Some s => s
  | None => default
  end.

(** Lines 445-449. *)
Definition job_status (color : string) : string :=
  if negb (str_not color) && str_in "_anime" color
  then get_or "Unknown" (status_map (replace color "_anime" ""))
       ++ " (Running)"
  else get_or "Unknown" (status_map color).

(** Lines 423-451: the rows of the table in fast mode; [color job] is
    [job.get('color', 'unknown')]. *)
Definition fast_rows (all : bool) (filtered : list job)
    : list (string * string) :=
  flat_map
    (fun job =>
       if endswith (name job) "/" || String.eqb (color job) "nobuilt"
       then (if all then [(name job, "Folder")] else [])
       else [(name job, job_status (color job))])
    filtered.

(** ** The status and console commands: choice of the job *)

(** Lines 1183-1225 of [status], and word for word lines 1323-1365 of
    [console]. *)
Definition status_selected_job (jobs : list job) (partial_service_name : string)
    : result selection :=
  let search_name := lower partial_service_name in
  let matching_jobs :=
    filter (fun job => str_in search_name (lower (name job))) jobs in
  if list_not matching_jobs then Ok (NoMatchingJob jobs)
  else
    let matching_jobs :=
      if (1 <? List.length matching_jobs)%nat then
        let exact_matches :=
          filter (fun job => String.eqb (lower (name job)) search_name)
                 matching_jobs in
        if negb (list_not exact_matches) then exact_matches
        else
          let start_matches :=
            filter (fun job => startswith (lower (name job)) search_name)
                   matching_jobs in
          if negb (list_not start_matches) then start_matches
          else matching_jobs
      else matching_jobs in
    selected_job <- item0 matching_jobs ;;
    Ok (Selected selected_job).

(** ** The build command: the branch parameter *)



(** ** The console command: the last lines *)

(** Lines 1412-1415 and 1443-1446, with [--tail]: the lines shown instead
    of the whole output, or [None] when the output is left as it is.  The
    output [console_output] is empty exactly when it has no line. *)
Definition tail_lines (lines : Z) (console_lines : list string)
    : option (list string) :=
  if negb (list_not console_lines) then
    if (lines <? Z.of_nat (List.length console_lines))%Z
    then Some (slice_from (- lines) console_lines)
    else None
  else None.

(** * Vocabulary of the specification *)

(** ** First elements, shortest and longest elements *)

(** [x] is the first element of [l] that passes [test]. *)
Definition first_passing {A : Type} (test : A -> bool) (l : list A) (x : A)
    : Prop :=
  exists l1 l2,
    l = l1 ++ x :: l2 /\ test x = true /\ forall y, In y l1 -> test y = false.

(** [x] is the head of [l]. *)
Definition first_of {A : Type} (l : list A) (x : A) : Prop :=
  exists l2, l = x :: l2.

(** [x] is the earliest of the shortest strings of [l]. *)
Definition shortest_first (l : list string) (x : string) : Prop :=
  exists l1 l2,
    l = l1 ++ x :: l2
    /\ (forall y, In y l1 -> String.length x < String.length y)
    /\ (forall y, In y l2 -> String.length x <= String.length y).

(** [x] is the earliest of the longest strings of [l]. *)
Definition longest_first (l : list string) (x : string) : Prop :=
  exists l1 l2,
    l = l1 ++ x :: l2
    /\ (forall y, In y l1 -> String.length y < String.length x)
    /\ (forall y, In y l2 -> String.length y <= String.length x).

(** ** The resolution cascade, in the words of the specification *)

(** Candidate [c] equals the partial name [p], contains it, starts with it,
    without regard to letter case. *)
Definition ci_equal (p c : string) : bool := String.eqb (lower c) (lower p).
Definition ci_contains (p c : string) : bool := str_in (lower p) (lower c).
Definition ci_startswith (p c : string) : bool := startswith (lower c) (lower p).

(** The candidates containing [p], in their original order. *)
Definition substring_matches (p : string) (candidates : list string)
    : list string :=
  filter (ci_contains p) candidates.

Section Cascade.

(** How one of several substring matches is picked when none starts with
    the partial name. *)
Variable residual : list string -> string -> Prop.
Variable p : string.
Variable candidates : list string.

(** Exact match; else the only substring match; else the first substring
    match that starts with [p]; else the [residual] pick; else nothing. *)
Inductive cascade : option string -> Prop :=
| cascade_exact (c : string) :
    first_passing (ci_equal p) candidates c ->
    cascade (Some c)
| cascade_unique (c : string) :
    (forall y, In y candidates -> ci_equal p y = false) ->
    substring_matches p candidates = [c] ->
    cascade (Some c)
| cascade_starts (c : string) :
    (forall y, In y candidates -> ci_equal p y = false) ->
    2 <= List.length (substring_matches p candidates) ->
    first_passing (ci_startswith p) (substring_matches p candidates) c ->
    cascade (Some c)
| cascade_residual (c : string) :
    (forall y, In y candidates -> ci_equal p y = false) ->
    2 <= List.length (substring_matches p candidates) ->
    (forall y, In y (substring_matches p candidates) ->
               ci_startswith p y = false) ->
    residual (substring_matches p candidates) c ->
    cascade (Some c)
| cascade_nothing :
    substring_matches p candidates = [] ->
    cascade None.

(** The loops of one tier of the resolver functions; [tie] is the call
    made on several substring matches none of which starts with [p]. *)
Definition run_cascade (tie : list string -> result string)
    : result (option string) :=
  match find (ci_equal p) candidates with
  | Some c => Ok (Some c)
  | None =>
      let matches := substring_matches p candidates in
      if (List.length matches =? 1)%nat
      then (m <- item0 matches ;; Ok (Some m))
      else
        match find (ci_startswith p) matches with
        | Some m => Ok (Some m)
        | None =>
            if negb (list_not matches)
            then (m <- tie matches ;; Ok (Some m))
            else Ok None
        end
  end.

End Cascade.

(** ** Job mode *)

(** Job [j] is named [q], has a name starting with "test-collateral-"
    followed by [q], starting with [q], containing [q], without regard to
    letter case. *)
Definition job_is (q : string) (j : job) : bool :=
  String.eqb (lower (name j)) (lower q).
Definition job_has_prefix (q : string) (j : job) : bool :=
  startswith (lower (name j)) (lower ("test-collateral-" ++ q)).
Definition job_starts (q : string) (j : job) : bool :=
  startswith (lower (name j)) (lower q).
Definition job_contains (q : string) (j : job) : bool :=
  str_in (lower q) (lower (name j)).

(** The preference order among the candidates [M] of job mode. *)
Inductive job_choice (q : string) (M : list job) : job -> Prop :=
| choice_exact (j : job) :
    first_passing (job_is q) M j ->
    job_choice q M j
| choice_prefixed (j : job) :
    (forall y, In y M -> job_is q y = false) ->
    first_passing (job_has_prefix q) M j ->
    job_choice q M j
| choice_starting (j : job) :
    (forall y, In y M -> job_is q y = false) ->
    (forall y, In y M -> job_has_prefix q y = false) ->
    first_passing (job_starts q) M j ->
    job_choice q M j
| choice_first (j : job) :
    (forall y, In y M -> job_is q y = false) ->
    (forall y, In y M -> job_has_prefix q y = false) ->
    (forall y, In y M -> job_starts q y = false) ->
    first_of M j ->
    job_choice q M j.

(** ** Service name of a job *)

(** [r] is the earliest of the longest entries of [catalog] that occur in
    [jobName]. *)
Definition longest_match (jobName : string) (catalog : list string)
    (r : string) : Prop :=
  exists l1 l2,
    catalog = l1 ++ r :: l2
    /\ str_in r jobName = true
    /\ (forall y, In y l1 -> str_in y jobName = true ->
                  String.length y < String.length r)
    /\ (forall y, In y l2 -> str_in y jobName = true ->
                  String.length y <= String.length r).

(** The fallback as the specification words it: strip the prefix and the
    suffix when both are there. *)
Definition strip_both (jobName : string) : string :=
  let rest := drop (String.length "test-collateral-") jobName in
  substring 0 (String.length rest - String.length "-build") rest.

Definition stated_fallback (jobName : string) : string :=
  if startswith jobName "test-collateral-" && endswith jobName "-build"
  then strip_both jobName
  else jobName.

(** ** Branch history *)

(** [l] without its first element equal to [x]. *)
Fixpoint remove1 (x : string) (l : list string) : list string :=
  match l with
  | [] => []
  | y :: l' => if String.eqb y x then l' else y :: remove1 x l'
  end.

(** [l] without any element equal to [x]. *)
Definition without (x : string) (l : list string) : list string :=
  filter (fun y => negb (String.eqb y x)) l.

(** Move to the front or insert, then keep the first 50. *)
Definition touch (x : string) (h : list string) : list string :=
  firstn 50 (x :: remove1 x h).

Arguments touch : simpl never.

(** The invariants of the branch history. *)
Definition history_ok (h : list string) : Prop :=
  List.length h <= 50
  /\ (forall b, In b h -> lower b <> "dev")
  /\ NoDup h.

(** A boolean test of pairwise distinctness. *)
Fixpoint distinct (l : list string) : bool :=
  match l with
  | [] => true
  | x :: l' => negb (list_in x l') && distinct l'
  end.

(** Fifty-one one-letter names, "A" first. *)
Definition sample_names : list string :=
  map (fun n => String (ascii_of_nat n) EmptyString) (seq 65 51).

(** ** Vocabulary for the rest of the module *)

(** The preference order of the status and console commands. *)
Inductive plain_job_choice (q : string) (M : list job) : job -> Prop :=
| plain_exact (j : job) :
    first_passing (job_is q) M j ->
    plain_job_choice q M j
| plain_starting (j : job) :
    (forall y, In y M -> job_is q y = false) ->
    first_passing (job_starts q) M j ->
    plain_job_choice q M j
| plain_first (j : job) :
    (forall y, In y M -> job_is q y = false) ->
    (forall y, In y M -> job_starts q y = false) ->
    first_of M j ->
    plain_job_choice q M j.

(** No two different names of [l] are equal up to letter case. *)
Definition case_distinct (l : list string) : Prop :=
  forall a b, In a l -> In b l -> lower a = lower b -> a = b.

(** The statuses the job list can show for a job that is not running. *)
Definition base_statuses : list string :=
  ["Success"; "Failed"; "Unstable"; "Not Built"; "Disabled"; "Aborted";
   "Unknown"].

(** The loop of [get_available_branches] over the lines [lines], started
    with the list [branches]. *)
Definition collected_branches (lines branches : list string) : list string :=
  fold_left
    (fun branches line =>
       let branch := branch_of_line line in
       if negb (str_not branch) && negb (list_in branch branches)
          && negb (endswith branch "/HEAD")
       then branches ++ [branch]
       else branches)
    lines branches.

(** Two jobs for the instances below. *)
Definition sample_jobs : list job :=
  [mkJob "test-collateral-api-build" "" "blue";
   mkJob "test-collateral-Scale-up" "" "red_anime"].

(** * Properties *)

(** ** Strings *)

Lemma startswith_app (p r : string) : startswith (p ++ r)%string p = true.
Proof.
  induction p as [|a p IH]; simpl.
  - reflexivity.
  - rewrite Ascii.eqb_refl. exact IH.
Qed.

Lemma startswith_split (s p : string) :
  startswith s p = true -> exists r, s = (p ++ r)%string.
Proof.
  revert s. induction p as [|a p IH]; intros s H.
  - exists s. reflexivity.
  - destruct s as [|b s]; simpl in H; [discriminate|].
    apply andb_true_iff in H. destruct H as [Hab H].
    apply Ascii.eqb_eq in Hab. subst b.
    destruct (IH s H) as [r ->]. exists r. reflexivity.
Qed.

Lemma startswith_refl (s : string) : startswith s s = true.
Proof.
  induction s as [|a s IH]; simpl; [reflexivity|].
  rewrite Ascii.eqb_refl. exact IH.
Qed.

Lemma str_in_refl (s : string) : str_in s s = true.
Proof.
  destruct s; simpl.
  - reflexivity.
  - rewrite Ascii.eqb_refl, startswith_refl. reflexivity.
Qed.

Lemma str_in_cons (p : string) (c : ascii) (s : string) :
  str_in p (String c s) = startswith (String c s) p || str_in p s.
Proof. reflexivity. Qed.

Lemma str_in_empty (s : string) : str_in "" s = true.
Proof. destruct s; reflexivity. Qed.

Lemma str_in_startswith (p s : string) :
  startswith s p = true -> str_in p s = true.
Proof. intro H. destruct s; simpl; rewrite H; reflexivity. Qed.

(** [str_in] is occurrence as a contiguous substring. *)
Lemma str_in_split (p s : string) :
  str_in p s = true <-> exists a b, s = (a ++ p ++ b)%string.
Proof.
  split.
  - induction s as [|c s IH]; intro H.
    + simpl in H. rewrite orb_false_r in H.
      apply startswith_split in H. destruct H as [r Hr].
      exists "", r. exact Hr.
    + rewrite str_in_cons in H. apply orb_true_iff in H.
      destruct H as [H|H].
      * apply startswith_split in H. destruct H as [r Hr].
        exists "", r. exact Hr.
      * destruct (IH H) as (a & b & ->).
        exists (String c a), b. reflexivity.
  - intros (a & b & ->). induction a as [|c a IH].
    + apply str_in_startswith. exact (startswith_app p b).
    + change (String c a ++ p ++ b)%string with (String c (a ++ p ++ b)%string).
      rewrite str_in_cons, IH. apply orb_true_r.
Qed.

Lemma lower_app (a b : string) : lower (a ++ b)%string = (lower a ++ lower b)%string.
Proof.
  induction a as [|c a IH]; simpl; [reflexivity|].
  rewrite IH. reflexivity.
Qed.

Lemma str_not_false (s : string) : s <> "" -> str_not s = false.
Proof. destruct s; [congruence|reflexivity]. Qed.

(** ** First elements, shortest and longest elements *)

Lemma find_first_passing {A : Type} (test : A -> bool) (l : list A) (x : A) :
  find test l = Some x <-> first_passing test l x.
Proof.
  split.
  - induction l as [|y l IH]; simpl; [discriminate|].
    destruct (test y) eqn:Ty; intro H.
    + injection H as <-. exists [], l. simpl. tauto.
    + destruct (IH H) as (l1 & l2 & -> & Tx & Hl1).
      exists (y :: l1), l2. repeat split; auto.
      intros z [<-|Hz]; auto.
  - intros (l1 & l2 & -> & Tx & Hl1).
    induction l1 as [|y l1 IH]; simpl.
    + rewrite Tx. reflexivity.
    + rewrite (Hl1 y (or_introl eq_refl)). apply IH.
      intros z Hz. apply Hl1. right. exact Hz.
Qed.

Lemma find_none_iff {A : Type} (test : A -> bool) (l : list A) :
  find test l = None <-> forall y, In y l -> test y = false.
Proof.
  split.
  - intros H y Hy. exact (find_none test l H y Hy).
  - induction l as [|y l IH]; simpl; intro H; [reflexivity|].
    rewrite (H y (or_introl eq_refl)). apply IH.
    intros z Hz. apply H. right. exact Hz.
Qed.

(** The head of a filtered list is what the search loop finds. *)
Lemma find_filter_head {A : Type} (test : A -> bool) (l : list A) :
  find test l = hd_error (filter test l).
Proof.
  induction l as [|y l IH]; simpl; [reflexivity|].
  destruct (test y); [reflexivity|exact IH].
Qed.

Lemma filter_nil_iff {A : Type} (test : A -> bool) (l : list A) :
  filter test l = [] <-> forall y, In y l -> test y = false.
Proof.
  rewrite <- find_none_iff, find_filter_head.
  destruct (filter test l); simpl; split; congruence.
Qed.

(** A decomposition of a filtered list comes from one of the list. *)
Lemma filter_decompose {A : Type} (test : A -> bool) (l : list A)
    (m1 m2 : list A) (x : A) :
  filter test l = m1 ++ x :: m2 ->
  exists l1 l2,
    l = l1 ++ x :: l2 /\ filter test l1 = m1 /\ filter test l2 = m2
    /\ test x = true.
Proof.
  revert m1. induction l as [|y l IH]; intros m1 H; simpl in H.
  - destruct m1; discriminate.
  - destruct (test y) eqn:Ty.
    + destruct m1 as [|z m1]; simpl in H; injection H as Hy Hl.
      * subst y. exists [], l. simpl. auto.
      * subst z. destruct (IH m1 Hl) as (l1 & l2 & -> & F1 & F2 & Tx).
        exists (y :: l1), l2. simpl. rewrite Ty, F1. auto.
    + destruct (IH m1 H) as (l1 & l2 & -> & F1 & F2 & Tx).
      exists (y :: l1), l2. simpl. rewrite Ty. auto.
Qed.

Lemma first_passing_unique {A : Type} (test : A -> bool) (l : list A)
    (x y : A) :
  first_passing test l x -> first_passing test l y -> x = y.
Proof.
  intros Hx Hy. apply find_first_passing in Hx, Hy. congruence.
Qed.

Lemma first_of_unique {A : Type} (l : list A) (x y : A) :
  first_of l x -> first_of l y -> x = y.
Proof. intros [l2 ->] [l2' H]. congruence. Qed.

Lemma min_from_shortest (best : string) (l : list string) :
  shortest_first (best :: l) (min_from best l).
Proof.
  revert best. induction l as [|x l IH]; intro best; simpl.
  - exists [], []. simpl. repeat split; intros y [].
  - destruct (String.length x <? String.length best)%nat eqn:E.
    + apply Nat.ltb_lt in E.
      destruct (IH x) as (l1 & l2 & Hd & H1 & H2).
      exists (best :: l1), l2. simpl. rewrite <- Hd. repeat split; auto.
      intros y [<-|Hy]; auto.
      assert (Hx : In x (l1 ++ min_from x l :: l2))
        by (rewrite <- Hd; left; reflexivity).
      apply in_app_or in Hx. destruct Hx as [Hx|[Hx|Hx]].
      * specialize (H1 x Hx). lia.
      * rewrite Hx. exact E.
      * specialize (H2 x Hx). lia.
    + apply Nat.ltb_ge in E.
      destruct (IH best) as (l1 & l2 & Hd & H1 & H2).
      destruct l1 as [|z l1]; simpl in Hd; injection Hd as Hb Hl.
      * exists [], (x :: l). simpl. rewrite <- Hb in H2 |- *. repeat split.
        -- intros y [].
        -- intros y [<-|Hy]; [exact E|]. apply H2. rewrite <- Hl. exact Hy.
      * subst z. exists (best :: x :: l1), l2.
        split; [simpl; do 2 f_equal; exact Hl|split; [|exact H2]].
        intros y [<-|[<-|Hy]].
        -- apply H1. left. reflexivity.
        -- specialize (H1 best (or_introl eq_refl)). lia.
        -- apply H1. right. exact Hy.
Qed.

Lemma max_from_longest (best : string) (l : list string) :
  longest_first (best :: l) (max_from best l).
Proof.
  revert best. induction l as [|x l IH]; intro best; simpl.
  - exists [], []. simpl. repeat split; intros y [].
  - destruct (String.length best <? String.length x)%nat eqn:E.
    + apply Nat.ltb_lt in E.
      destruct (IH x) as (l1 & l2 & Hd & H1 & H2).
      exists (best :: l1), l2. simpl. rewrite <- Hd. repeat split; auto.
      intros y [<-|Hy]; auto.
      assert (Hx : In x (l1 ++ max_from x l :: l2))
        by (rewrite <- Hd; left; reflexivity).
      apply in_app_or in Hx. destruct Hx as [Hx|[Hx|Hx]].
      * specialize (H1 x Hx). lia.
      * rewrite Hx. exact E.
      * specialize (H2 x Hx). lia.
    + apply Nat.ltb_ge in E.
      destruct (IH best) as (l1 & l2 & Hd & H1 & H2).
      destruct l1 as [|z l1]; simpl in Hd; injection Hd as Hb Hl.
      * exists [], (x :: l). simpl. rewrite <- Hb in H2 |- *. repeat split.
        -- intros y [].
        -- intros y [<-|Hy]; [exact E|]. apply H2. rewrite <- Hl. exact Hy.
      * subst z. exists (best :: x :: l1), l2.
        split; [simpl; do 2 f_equal; exact Hl|split; [|exact H2]].
        intros y [<-|[<-|Hy]].
        -- apply H1. left. reflexivity.
        -- specialize (H1 best (or_introl eq_refl)). lia.
        -- apply H1. right. exact Hy.
Qed.

(** Two decompositions of one list around elements [x] and [y]: either they
    are the same decomposition, or one element lies before the other. *)
Lemma decompositions {A : Type} (l1 l2 l1' l2' : list A) (x y : A) :
  l1 ++ x :: l2 = l1' ++ y :: l2' ->
  (l1 = l1' /\ x = y /\ l2 = l2')
  \/ (In x l1' /\ In y l2) \/ (In y l1 /\ In x l2').
Proof.
  revert l1'. induction l1 as [|a l1 IH]; intros [|b l1'] H; simpl in H.
  - injection H as -> ->. left. auto.
  - injection H as -> ->. right. left. split.
    + left. reflexivity.
    + apply in_or_app. right. left. reflexivity.
  - injection H as -> <-. right. right. split.
    + left. reflexivity.
    + apply in_or_app. right. left. reflexivity.
  - injection H as -> H. destruct (IH l1' H) as [(-> & -> & ->)|[[H1 H2]|[H1 H2]]].
    + left. auto.
    + right. left. split; [right|]; assumption.
    + right. right. split; [right|]; assumption.
Qed.

Lemma shortest_first_unique (l : list string) (x y : string) :
  shortest_first l x -> shortest_first l y -> x = y.
Proof.
  intros (l1 & l2 & -> & H1 & H2) (l1' & l2' & Hd & H1' & H2').
  destruct (decompositions _ _ _ _ _ _ Hd) as [(_ & E & _)|[[Hx Hy]|[Hy Hx]]].
  - exact E.
  - specialize (H1' x Hx). specialize (H2 y Hy). lia.
  - specialize (H1 y Hy). specialize (H2' x Hx). lia.
Qed.

Lemma longest_first_unique (l : list string) (x y : string) :
  longest_first l x -> longest_first l y -> x = y.
Proof.
  intros (l1 & l2 & -> & H1 & H2) (l1' & l2' & Hd & H1' & H2').
  destruct (decompositions _ _ _ _ _ _ Hd) as [(_ & E & _)|[[Hx Hy]|[Hy Hx]]].
  - exact E.
  - specialize (H1' x Hx). specialize (H2 y Hy). lia.
  - specialize (H1 y Hy). specialize (H2' x Hx). lia.
Qed.

(** ** The resolution cascade *)

Lemma ci_equal_contains (p c : string) :
  ci_equal p c = true -> ci_contains p c = true.
Proof.
  unfold ci_equal, ci_contains. intro H.
  apply String.eqb_eq in H. rewrite H. apply str_in_refl.
Qed.

Lemma first_passing_In {A : Type} (test : A -> bool) (l : list A) (x : A) :
  first_passing test l x -> In x l /\ test x = true.
Proof.
  intros (l1 & l2 & -> & Tx & _). split; [|exact Tx].
  apply in_or_app. right. left. reflexivity.
Qed.

Lemma length_two_plus {A : Type} (l : list A) :
  l <> [] -> (List.length l =? 1)%nat = false -> 2 <= List.length l.
Proof.
  destruct l as [|a [|b l]]; simpl; intros H1 H2.
  - congruence.
  - discriminate.
  - lia.
Qed.

(** One tier of the code computes the cascade, provided [tie] returns a
    [residual] pick on every non-empty list. *)
Lemma run_cascade_cascade (residual : list string -> string -> Prop)
    (tie : list string -> result string) (p : string)
    (candidates : list string) :
  (forall l, l <> [] -> exists c, tie l = Ok c /\ residual l c) ->
  exists o,
    run_cascade p candidates tie = Ok o /\ cascade residual p candidates o.
Proof.
  intro Htie. unfold run_cascade.
  destruct (find (ci_equal p) candidates) as [c|] eqn:F.
  - exists (Some c). split; [reflexivity|].
    apply cascade_exact. apply find_first_passing. exact F.
  - assert (Hno := proj1 (find_none_iff _ _) F).
    destruct (List.length (substring_matches p candidates) =? 1)%nat eqn:L.
    + destruct (substring_matches p candidates) as [|m [|m' M]] eqn:EM;
        simpl in L; try discriminate.
      exists (Some m). split; [reflexivity|].
      apply cascade_unique; assumption.
    + destruct (find (ci_startswith p) (substring_matches p candidates))
        as [c|] eqn:S.
      * exists (Some c). split; [reflexivity|].
        apply cascade_starts; [exact Hno| |apply find_first_passing; exact S].
        apply length_two_plus; [|exact L].
        intro E. rewrite E in S. discriminate.
      * destruct (substring_matches p candidates) as [|m M] eqn:EM.
        -- exists None. split; [reflexivity|].
           apply cascade_nothing. exact EM.
        -- destruct (Htie (m :: M)) as (c & Hc & Hr); [discriminate|].
           exists (Some c). simpl. rewrite Hc. split; [reflexivity|].
           rewrite <- EM in *.
           apply cascade_residual; try assumption.
           ++ apply length_two_plus; [|exact L]. rewrite EM. discriminate.
           ++ apply find_none_iff. exact S.
Qed.

(** The cascade names at most one result. *)
Lemma cascade_functional (residual : list string -> string -> Prop)
    (p : string) (candidates : list string) (o o' : option string) :
  (forall l x y, residual l x -> residual l y -> x = y) ->
  cascade residual p candidates o -> cascade residual p candidates o' ->
  o = o'.
Proof.
  intros Hres H H'.
  assert (Hexact : forall c,
             first_passing (ci_equal p) candidates c ->
             In c (substring_matches p candidates)
             /\ ~ (forall y, In y candidates -> ci_equal p y = false)).
  { intros c Hc. apply first_passing_In in Hc. destruct Hc as [Hin Heq].
    split.
    - apply filter_In. split; [exact Hin|]. apply ci_equal_contains, Heq.
    - intro Hno. rewrite (Hno c Hin) in Heq. discriminate. }
  inversion H as [c Hc|c Hno Hu|c Hno Hlen Hs|c Hno Hlen Hns Hr|Hn];
  inversion H' as [c' Hc'|c' Hno' Hu'|c' Hno' Hlen' Hs'|c' Hno' Hlen' Hns' Hr'|Hn'];
  subst;
  try (f_equal; eapply first_passing_unique; eassumption);
  try (exfalso; apply (Hexact _ Hc); assumption);
  try (exfalso; apply (Hexact _ Hc'); assumption);
  try congruence;
  try (exfalso; rewrite Hu in *; simpl in *; lia);
  try (exfalso; rewrite Hu' in *; simpl in *; lia);
  try (exfalso; rewrite Hn in *; simpl in *; lia);
  try (exfalso; rewrite Hn' in *; simpl in *; lia).
  - exfalso. destruct (Hexact _ Hc) as [Hin _]. rewrite Hn' in Hin. exact Hin.
  - exfalso. apply first_passing_In in Hs. destruct Hs as [Hin Ht].
    rewrite (Hns' _ Hin) in Ht. discriminate.
  - exfalso. apply first_passing_In in Hs'. destruct Hs' as [Hin Ht].
    rewrite (Hns _ Hin) in Ht. discriminate.
  - f_equal. eapply Hres; eassumption.
  - exfalso. destruct (Hexact _ Hc') as [Hin _]. rewrite Hn in Hin. exact Hin.
Qed.

Lemma min_by_len_shortest (l : list string) :
  l <> [] -> exists c, min_by_len l = Ok c /\ shortest_first l c.
Proof.
  destruct l as [|x l]; [congruence|]. intros _.
  exists (min_from x l). split; [reflexivity|apply min_from_shortest].
Qed.

Lemma max_by_len_longest (l : list string) :
  l <> [] -> exists c, max_by_len l = Ok c /\ longest_first l c.
Proof.
  destruct l as [|x l]; [congruence|]. intros _.
  exists (max_from x l). split; [reflexivity|apply max_from_longest].
Qed.

Lemma item0_first_of {A : Type} (l : list A) :
  l <> [] -> exists c, item0 l = Ok c /\ first_of l c.
Proof.
  destruct l as [|x l]; [congruence|]. intros _.
  exists x. split; [reflexivity|exists l; reflexivity].
Qed.

(** [find_matching_service] is one tier with [min] as the last resort. *)
Lemma find_matching_service_tier (p : string) (C : list string) :
  p <> "" -> C <> [] ->
  find_matching_service p C = run_cascade p C min_by_len.
Proof.
  intros Hp HC. unfold find_matching_service.
  rewrite (str_not_false p Hp).
  destruct C as [|c C]; [congruence|]. reflexivity.
Qed.

(** [find_matching_branch] is the tier over the cached branches, then the
    tier over the available branches, then the partial name itself. *)
Lemma find_matching_branch_tiers (cached available : list string) (p : string) :
  p <> "" ->
  find_matching_branch cached available p =
    (o1 <- run_cascade p cached item0 ;;
     match o1 with
     | Some b => Ok b
     | None =>
         o2 <- run_cascade p available min_by_len ;;
         match o2 with
         | Some b => Ok b
         | None => Ok p
         end
     end).
Proof.
  intro Hp. unfold find_matching_branch, run_cascade, substring_matches.
  rewrite (str_not_false p Hp).
  change (fun branch => String.eqb (lower branch) (lower p)) with (ci_equal p).
  change (fun branch => str_in (lower p) (lower branch)) with (ci_contains p).
  change (fun m => startswith (lower m) (lower p)) with (ci_startswith p).
  destruct (find (ci_equal p) cached); [reflexivity|].
  destruct (filter (ci_contains p) cached) as [|m [|m' M]]; simpl;
    try reflexivity.
  - destruct (find (ci_equal p) available); [reflexivity|].
    destruct (filter (ci_contains p) available) as [|a [|a' A]]; simpl;
      try reflexivity.
    destruct (ci_startswith p a); [reflexivity|].
    destruct (ci_startswith p a'); [reflexivity|].
    destruct (find (ci_startswith p) A); reflexivity.
  - destruct (ci_startswith p m); [reflexivity|].
    destruct (ci_startswith p m'); [reflexivity|].
    destruct (find (ci_startswith p) M); reflexivity.
Qed.

Lemma run_cascade_nothing (tie : list string -> result string) (p : string)
    (candidates : list string) :
  (forall b, In b candidates -> ci_contains p b = false) ->
  run_cascade p candidates tie = Ok None.
Proof.
  intro Hno. unfold run_cascade.
  assert (F : find (ci_equal p) candidates = None).
  { apply find_none_iff. intros y Hy.
    destruct (ci_equal p y) eqn:E; [|reflexivity].
    apply ci_equal_contains in E. rewrite (Hno y Hy) in E. discriminate. }
  assert (M : substring_matches p candidates = [])
    by (apply filter_nil_iff; exact Hno).
  rewrite F, M. reflexivity.
Qed.

(** ** Service mode *)

(** C2, as stated, fails on the empty partial name: the cascade finds the
    only candidate, which contains the empty string, and the code returns
    [None]. *)
Lemma service_cascade_empty_partial_counterexample :
  ~ (forall (p : string) (C : list string),
        C <> [] ->
        exists o,
          find_matching_service p C = Ok o /\ cascade shortest_first p C o).
Proof.
  intro H.
  destruct (H "" ["abc"]) as (o & Ho & Hc); [discriminate|].
  vm_compute in Ho. injection Ho as <-.
  inversion Hc as [| | | |Hn]. vm_compute in Hn. discriminate.
Qed.

(** C2 (amended): for every non-empty candidate list and every non-empty
    partial name, service-mode resolution returns the result of the cascade
    (first case-insensitively equal element; else the unique substring
    match; else the first substring match starting with the partial name;
    else the earliest of the shortest matches; else [None]); and against the
    empty candidate list every partial name resolves to [None]. *)
Theorem find_matching_service_cascade :
  (forall (p : string) (C : list string),
      p <> "" -> C <> [] ->
      exists o,
        find_matching_service p C = Ok o /\ cascade shortest_first p C o)
  /\ (forall p : string, find_matching_service p [] = Ok None).
Proof.
  split.
  - intros p C Hp HC. rewrite (find_matching_service_tier p C Hp HC).
    apply run_cascade_cascade. exact min_by_len_shortest.
  - intro p. unfold find_matching_service.
    rewrite orb_true_r. reflexivity.
Qed.

Lemma find_matching_service_cascade_witness :
  "b" <> "" /\ ["abcd"; "xbx"] <> []
  /\ exists o,
       find_matching_service "b" ["abcd"; "xbx"] = Ok o
       /\ cascade shortest_first "b" ["abcd"; "xbx"] o.
Proof.
  split; [discriminate|]. split; [discriminate|].
  apply (proj1 find_matching_service_cascade "b" ["abcd"; "xbx"]);
    discriminate.
Defined.

(** C10: with an empty partial name service-mode resolution returns [None]
    whatever the candidates are, although every candidate contains the
    empty string, so that the substring step would keep them all. *)
Theorem find_matching_service_empty_partial (C : list string) :
  find_matching_service "" C = Ok None
  /\ substring_matches "" C = C.
Proof.
  split; [reflexivity|].
  unfold substring_matches. induction C as [|c C IH]; [reflexivity|].
  simpl filter. unfold ci_contains at 1.
  change (lower "") with "". rewrite str_in_empty, IH. reflexivity.
Qed.

(** ** Branch mode *)

(** C1: for a non-empty partial name the cascade runs over the cached
    branches, with the first of several matches as its last resort; only
    when it yields nothing does the cascade run over the available branches,
    with the earliest of the shortest matches as its last resort (and the
    partial name itself when that yields nothing too); with no cached
    branch and the default branches, "mai" resolves to "main". *)
Theorem find_matching_branch_two_tiers :
  (forall (cached available : list string) (p : string),
      p <> "" ->
      exists o1,
        cascade first_of p cached o1
        /\ match o1 with
           | Some b => find_matching_branch cached available p = Ok b
           | None =>
               exists o2,
                 cascade shortest_first p available o2
                 /\ find_matching_branch cached available p =
                      Ok (match o2 with Some b => b | None => p end)
           end)
  /\ find_matching_branch [] default_branches "mai" = Ok "main".
Proof.
  split; [|reflexivity].
  intros cached available p Hp.
  rewrite (find_matching_branch_tiers cached available p Hp).
  destruct (run_cascade_cascade first_of item0 p cached (@item0_first_of string))
    as (o1 & E1 & C1).
  exists o1. split; [exact C1|]. rewrite E1. simpl.
  destruct o1 as [b|]; [reflexivity|].
  destruct (run_cascade_cascade shortest_first min_by_len p available
              min_by_len_shortest) as (o2 & E2 & C2).
  exists o2. split; [exact C2|]. rewrite E2. simpl.
  destruct o2; reflexivity.
Qed.

Lemma find_matching_branch_two_tiers_witness :
  "e" <> ""
  /\ exists o1,
       cascade first_of "e" ["feature/x"; "fix/e"] o1
       /\ match o1 with
          | Some b =>
              find_matching_branch ["feature/x"; "fix/e"] default_branches "e"
              = Ok b
          | None =>
              exists o2,
                cascade shortest_first "e" default_branches o2
                /\ find_matching_branch ["feature/x"; "fix/e"]
                     default_branches "e" =
                     Ok (match o2 with Some b => b | None => "e" end)
          end.
Proof.
  split; [discriminate|].
  apply (proj1 find_matching_branch_two_tiers
           ["feature/x"; "fix/e"] default_branches "e").
  discriminate.
Defined.

(** Given the lists its two calls returned, the resolver returns a string:
    "dev" for the empty partial name, the partial name itself when no cached
    and no available branch contains it, and some string, never an
    exception, for every partial name. *)
Lemma find_matching_branch_total (cached available : list string) :
  find_matching_branch cached available "" = Ok "dev"
  /\ (forall p : string,
         p <> "" ->
         (forall b, In b cached -> ci_contains p b = false) ->
         (forall b, In b available -> ci_contains p b = false) ->
         find_matching_branch cached available p = Ok p)
  /\ (forall p : string,
         exists s, find_matching_branch cached available p = Ok s).
Proof.
  split; [reflexivity|]. split.
  - intros p Hp Hc Ha.
    rewrite (find_matching_branch_tiers cached available p Hp).
    rewrite (run_cascade_nothing item0 p cached Hc). simpl.
    rewrite (run_cascade_nothing min_by_len p available Ha). reflexivity.
  - intro p. destruct p as [|c p].
    + exists "dev". reflexivity.
    + rewrite (find_matching_branch_tiers cached available (String c p))
        by discriminate.
      destruct (run_cascade_cascade first_of item0 (String c p) cached
                  (@item0_first_of string)) as (o1 & -> & _).
      simpl. destruct o1 as [b|]; [exists b; reflexivity|].
      destruct (run_cascade_cascade shortest_first min_by_len (String c p)
                  available min_by_len_shortest) as (o2 & -> & _).
      simpl. destruct o2 as [b|]; eexists; reflexivity.
Qed.

Lemma find_matching_branch_total_witness :
  "zz" <> ""
  /\ (forall b, In b ["feature/x"] -> ci_contains "zz" b = false)
  /\ (forall b, In b default_branches -> ci_contains "zz" b = false)
  /\ find_matching_branch ["feature/x"] default_branches "zz" = Ok "zz".
Proof.
  assert (Hc : forall b, In b ["feature/x"] -> ci_contains "zz" b = false).
  { intros b [<-|[]]. reflexivity. }
  assert (Ha : forall b, In b default_branches -> ci_contains "zz" b = false).
  { intros b [<-|[<-|[<-|[<-|[<-|[]]]]]]; reflexivity. }
  split; [discriminate|]. split; [exact Hc|]. split; [exact Ha|].
  apply (proj1 (proj2 (find_matching_branch_total ["feature/x"] default_branches))
           "zz"); [discriminate|exact Hc|exact Ha].
Defined.

(** ** Job mode *)

Lemma job_choice_In (q : string) (M : list job) (j : job) :
  job_choice q M j -> In j M.
Proof.
  intros [j' H|j' _ H|j' _ _ H|j' _ _ _ [t ->]];
    try (apply first_passing_In in H; tauto).
  left. reflexivity.
Qed.

Lemma job_choice_functional (q : string) (M : list job) (j j' : job) :
  job_choice q M j -> job_choice q M j' -> j = j'.
Proof.
  intros H H'.
  assert (Hfp : forall test x,
             first_passing test M x ->
             ~ (forall y, In y M -> test y = false)).
  { intros test x Hx Hno. apply first_passing_In in Hx.
    destruct Hx as [Hin Ht]. rewrite (Hno x Hin) in Ht. discriminate. }
  destruct H as [a Ha|a Ha1 Ha|a Ha1 Ha2 Ha|a Ha1 Ha2 Ha3 Ha];
  destruct H' as [b Hb|b Hb1 Hb|b Hb1 Hb2 Hb|b Hb1 Hb2 Hb3 Hb];
  try (eapply first_passing_unique; eassumption);
  try (eapply first_of_unique; eassumption);
  try (exfalso; apply (Hfp _ _ Ha); assumption);
  try (exfalso; apply (Hfp _ _ Hb); assumption).
Qed.

Lemma filter_head_first_passing {A : Type} (test : A -> bool) (l : list A)
    (x : A) (t : list A) :
  filter test l = x :: t -> first_passing test l x.
Proof.
  intro H. apply find_first_passing. rewrite find_filter_head, H. reflexivity.
Qed.

(** The list the code goes on with when there are several candidates, and
    its head. *)
Lemma preferred_jobs_choice (q : string) (M : list job) :
  M <> [] ->
  exists j,
    item0
      (if negb (list_not (filter (job_is q) M)) then filter (job_is q) M
       else if negb (list_not (filter (job_has_prefix q) M))
       then filter (job_has_prefix q) M
       else if negb (list_not (filter (job_starts q) M))
       then filter (job_starts q) M
       else M) = Ok j
    /\ job_choice q M j.
Proof.
  intro HM.
  destruct (filter (job_is q) M) as [|j t] eqn:E1; simpl.
  2:{ exists j. split; [reflexivity|].
      apply choice_exact. eapply filter_head_first_passing; eassumption. }
  destruct (filter (job_has_prefix q) M) as [|j t] eqn:E2; simpl.
  2:{ exists j. split; [reflexivity|].
      apply choice_prefixed; [apply filter_nil_iff; exact E1|].
      eapply filter_head_first_passing; eassumption. }
  destruct (filter (job_starts q) M) as [|j t] eqn:E3; simpl.
  2:{ exists j. split; [reflexivity|].
      apply choice_starting;
        [apply filter_nil_iff; exact E1|apply filter_nil_iff; exact E2|].
      eapply filter_head_first_passing; eassumption. }
  destruct M as [|j t]; [congruence|].
  exists j. split; [reflexivity|].
  apply choice_first; try (apply filter_nil_iff; assumption).
  exists t. reflexivity.
Qed.

Lemma job_has_prefix_code (q : string) (j : job) :
  job_has_prefix q j =
  startswith (lower (name j)) ("test-collateral-" ++ lower q).
Proof. unfold job_has_prefix. rewrite lower_app. reflexivity. Qed.

(** C3: when some build job contains the query, the build command goes on
    with the job the preference order names among the build jobs containing
    the query: the first exact match, else the first whose name starts with
    "test-collateral-" followed by the query, else the first whose name
    starts with the query, else the first candidate; all comparisons without
    regard to letter case.  Of the two "eurex" build jobs the query "eurex"
    selects "test-collateral-eurex-build". *)
Theorem build_selected_job_choice :
  (forall (jobs : list job) (q : string),
      filter (job_contains q) (build_jobs_of jobs) <> [] ->
      exists j,
        build_selected_job jobs q = Ok (Selected j)
        /\ job_choice q (filter (job_contains q) (build_jobs_of jobs)) j)
  /\ build_selected_job
       [mkJob "test-collateral-eurex-build" "" "blue";
        mkJob "test-collateral-eurex-report-build" "" "blue"] "eurex"
     = Ok (Selected (mkJob "test-collateral-eurex-build" "" "blue")).
Proof.
  split; [|reflexivity].
  intros jobs q HM. unfold build_selected_job.
  change (fun job => str_in (lower q) (lower (name job))) with (job_contains q).
  change (fun job => String.eqb (lower (name job)) (lower q)) with (job_is q).
  change (fun job => startswith (lower (name job)) (lower q))
    with (job_starts q).
  rewrite (filter_ext _ _ (fun j => eq_sym (job_has_prefix_code q j))).
  destruct (build_jobs_of jobs) as [|b B] eqn:EB; [contradiction HM; reflexivity|].
  cbv beta iota delta [list_not].
  set (M := filter (job_contains q) (b :: B)) in *.
  destruct (preferred_jobs_choice q M HM) as (j & Hj & Hc).
  destruct M as [|m [|m' M']] eqn:EM; [congruence| |].
  - (* a single candidate *)
    simpl. exists m. split; [reflexivity|].
    apply job_choice_In in Hc as Hin.
    destruct Hin as [<-|[]]. exact Hc.
  - (* several candidates *)
    exists j. split; [|exact Hc].
    change (1 <? List.length (m :: m' :: M'))%nat with true.
    cbv beta iota. unfold list_not in Hj. rewrite Hj. reflexivity.
Qed.

Lemma build_selected_job_choice_witness :
  filter (job_contains "api")
    (build_jobs_of [mkJob "test-collateral-api-build" "" "red";
                    mkJob "test-collateral-api-report" "" "red"]) <> []
  /\ exists j,
       build_selected_job [mkJob "test-collateral-api-build" "" "red";
                           mkJob "test-collateral-api-report" "" "red"] "api"
       = Ok (Selected j)
       /\ job_choice "api"
            (filter (job_contains "api")
               (build_jobs_of [mkJob "test-collateral-api-build" "" "red";
                               mkJob "test-collateral-api-report" "" "red"]))
            j.
Proof.
  split; [discriminate|].
  apply (proj1 build_selected_job_choice). discriminate.
Defined.

(** ** Service name of a job *)

Lemma longest_match_unique (jobName : string) (catalog : list string)
    (r r' : string) :
  longest_match jobName catalog r -> longest_match jobName catalog r' ->
  r = r'.
Proof.
  intros (l1 & l2 & -> & Hr & H1 & H2) (l1' & l2' & Hd & Hr' & H1' & H2').
  destruct (decompositions _ _ _ _ _ _ Hd) as [(_ & E & _)|[[Hx Hy]|[Hy Hx]]].
  - exact E.
  - specialize (H1' r Hx Hr). specialize (H2 r' Hy Hr'). lia.
  - specialize (H1 r' Hy Hr'). specialize (H2' r Hx Hr). lia.
Qed.

(** C5: when some catalog entry occurs in the job name, the service name
    is the longest such entry, the earliest in catalog order among equally
    long ones; for "test-collateral-eurex-build" and the catalog
    ["eurex"; "eur"] it is "eurex". *)
Theorem build_service_name_longest :
  (forall (catalog : list string) (jobName : string),
      (exists c, In c catalog /\ str_in c jobName = true) ->
      exists r,
        build_service_name catalog jobName = Ok r
        /\ longest_match jobName catalog r)
  /\ build_service_name ["eurex"; "eur"] "test-collateral-eurex-build"
     = Ok "eurex".
Proof.
  split; [|reflexivity].
  intros catalog jobName (c & Hin & Hc). unfold build_service_name.
  set (test := fun available_service => str_in available_service jobName).
  assert (HM : filter test catalog <> []).
  { intro E. apply (proj1 (filter_nil_iff test catalog) E) in Hin.
    unfold test in Hin. congruence. }
  destruct (max_by_len_longest _ HM) as (r & Hr & m1 & m2 & Hd & H1 & H2).
  exists r. split.
  - destruct (filter test catalog); [congruence|exact Hr].
  - destruct (filter_decompose _ _ _ _ _ Hd) as (l1 & l2 & -> & F1 & F2 & Tr).
    exists l1, l2. repeat split; try assumption.
    + intros y Hy Ty. apply H1. rewrite <- F1. apply filter_In. tauto.
    + intros y Hy Ty. apply H2. rewrite <- F2. apply filter_In. tauto.
Qed.

Lemma build_service_name_longest_witness :
  (exists c, In c ["ab"; "cd"; "x"] /\ str_in c "test-collateral-cd-ab-build" = true)
  /\ exists r,
       build_service_name ["ab"; "cd"; "x"] "test-collateral-cd-ab-build" = Ok r
       /\ longest_match "test-collateral-cd-ab-build" ["ab"; "cd"; "x"] r.
Proof.
  assert (H : exists c, In c ["ab"; "cd"; "x"]
                        /\ str_in c "test-collateral-cd-ab-build" = true).
  { exists "ab". split; [left; reflexivity|reflexivity]. }
  split; [exact H|].
  apply (proj1 build_service_name_longest). exact H.
Defined.

(** *** The fallback *)

Lemma replace_from_cons (old new : string) (c : ascii) (s : string) :
  replace_from 0 old new (String c s) =
  if startswith (String c s) old
  then (new ++ replace_from (String.length old - 1) old new s)%string
  else String c (replace_from 0 old new s).
Proof. reflexivity. Qed.

(** Nothing is replaced in a string in which [old] does not occur. *)
Lemma replace_from_absent (old new s : string) :
  str_in old s = false -> replace_from 0 old new s = s.
Proof.
  induction s as [|c s IH]; intro H; [reflexivity|].
  rewrite str_in_cons in H. apply orb_false_iff in H. destruct H as [H1 H2].
  rewrite replace_from_cons, H1, (IH H2). reflexivity.
Qed.

(** "-build" starts with the dash that occurs nowhere else in it: an
    occurrence at the start of [t ++ "-build"] lies within [t], unless [t]
    is empty. *)
Lemma startswith_build_app (t : string) :
  startswith (t ++ "-build")%string "-build" = true ->
  t = "" \/ startswith t "-build" = true.
Proof.
  intro H.
  destruct t as [|c1 t]; [left; reflexivity|right].
  simpl in H. apply andb_true_iff in H. destruct H as [E1 H].
  destruct t as [|c2 t]; [simpl in H; discriminate|].
  simpl in H. apply andb_true_iff in H. destruct H as [E2 H].
  destruct t as [|c3 t]; [simpl in H; discriminate|].
  simpl in H. apply andb_true_iff in H. destruct H as [E3 H].
  destruct t as [|c4 t]; [simpl in H; discriminate|].
  simpl in H. apply andb_true_iff in H. destruct H as [E4 H].
  destruct t as [|c5 t]; [simpl in H; discriminate|].
  simpl in H. apply andb_true_iff in H. destruct H as [E5 H].
  destruct t as [|c6 t]; [simpl in H; discriminate|].
  simpl in H. apply andb_true_iff in H. destruct H as [E6 H].
  simpl. rewrite E1, E2, E3, E4, E5, E6. reflexivity.
Qed.

(** Deleting "-build" from [s ++ "-build"] gives [s] back when "-build"
    does not occur in [s]. *)
Lemma replace_build_suffix (s : string) :
  str_in "-build" s = false ->
  replace (s ++ "-build") "-build" "" = s.
Proof.
  unfold replace. induction s as [|c s IH]; intro H; [reflexivity|].
  rewrite str_in_cons in H. apply orb_false_iff in H. destruct H as [H1 H2].
  change (String c s ++ "-build")%string with (String c (s ++ "-build")).
  rewrite replace_from_cons.
  destruct (startswith (String c (s ++ "-build")) "-build") eqn:E.
  - exfalso. destruct (startswith_build_app (String c s) E) as [E'|E'].
    + discriminate.
    + congruence.
  - rewrite (IH H2). reflexivity.
Qed.

(** Deleting "test-collateral-" from a string that starts with it and has
    no other occurrence leaves the rest. *)
Lemma replace_collateral_prefix (rest : string) :
  str_in "test-collateral-" rest = false ->
  replace ("test-collateral-" ++ rest) "test-collateral-" "" = rest.
Proof.
  intro H. unfold replace.
  change (replace_from 0 "test-collateral-" ""
            ("test-collateral-" ++ rest))
    with (replace_from 0 "test-collateral-" "" rest).
  apply replace_from_absent. exact H.
Qed.

(** C4, as stated, fails: a job name that starts with "test-collateral-"
    but does not end with "-build" is not returned unchanged. *)
Lemma build_service_name_fallback_counterexample :
  ~ (forall (catalog : list string) (jobName : string),
        (forall c, In c catalog -> str_in c jobName = false) ->
        build_service_name catalog jobName = Ok (stated_fallback jobName)).
Proof.
  intro H.
  specialize (H ["eurex"] "test-collateral-unknownthing-build-nightly").
  assert (Hc : forall c, In c ["eurex"] ->
                 str_in c "test-collateral-unknownthing-build-nightly" = false).
  { intros c [<-|[]]. reflexivity. }
  specialize (H Hc). vm_compute in H. discriminate.
Qed.

(** C4 (amended): when no catalog entry occurs in the job name, a job name
    that starts with "test-collateral-" gives the job name with every
    occurrence of "test-collateral-" deleted and then every occurrence of
    "-build" deleted, whether or not it ends with "-build"; this is the
    remainder [s] for the job name "test-collateral-" ++ s ++ "-build" when
    "test-collateral-" does not occur in s ++ "-build" and "-build" does not
    occur in [s]; a job name that does not start with "test-collateral-" is
    returned unchanged; for "test-collateral-unknownthing-build" and the
    catalog ["eurex"] the service name is "unknownthing". *)
Theorem build_service_name_fallback :
  (forall (catalog : list string) (jobName : string),
      (forall c, In c catalog -> str_in c jobName = false) ->
      build_service_name catalog jobName =
      Ok (if startswith jobName "test-collateral-"
          then replace (replace jobName "test-collateral-" "") "-build" ""
          else jobName))
  /\ (forall (catalog : list string) (s : string),
         (forall c, In c catalog ->
                    str_in c ("test-collateral-" ++ s ++ "-build") = false) ->
         str_in "test-collateral-" (s ++ "-build") = false ->
         str_in "-build" s = false ->
         build_service_name catalog ("test-collateral-" ++ s ++ "-build")
         = Ok s)
  /\ build_service_name ["eurex"] "test-collateral-unknownthing-build"
     = Ok "unknownthing".
Proof.
  assert (Hcode : forall catalog jobName,
             (forall c, In c catalog -> str_in c jobName = false) ->
             build_service_name catalog jobName =
             Ok (if startswith jobName "test-collateral-"
                 then replace (replace jobName "test-collateral-" "")
                              "-build" ""
                 else jobName)).
  { intros catalog jobName Hno. unfold build_service_name.
    rewrite (proj2 (filter_nil_iff _ catalog) Hno).
    cbv zeta. change (negb (list_not (@nil string))) with false. cbv iota.
    destruct (startswith jobName "test-collateral-"); reflexivity. }
  split; [exact Hcode|]. split; [|reflexivity].
  intros catalog s Hno Hp Hs.
  rewrite (Hcode _ _ Hno).
  rewrite (startswith_app "test-collateral-" (s ++ "-build")).
  rewrite (replace_collateral_prefix _ Hp).
  rewrite (replace_build_suffix _ Hs). reflexivity.
Qed.

Lemma build_service_name_fallback_witness :
  (forall c, In c ["eurex"] ->
             str_in c ("test-collateral-" ++ "api" ++ "-build") = false)
  /\ str_in "test-collateral-" ("api" ++ "-build") = false
  /\ str_in "-build" "api" = false
  /\ build_service_name ["eurex"] ("test-collateral-" ++ "api" ++ "-build")
     = Ok "api".
Proof.
  assert (Hc : forall c, In c ["eurex"] ->
                 str_in c ("test-collateral-" ++ "api" ++ "-build") = false).
  { intros c [<-|[]]. reflexivity. }
  split; [exact Hc|]. split; [reflexivity|]. split; [reflexivity|].
  apply (proj1 (proj2 build_service_name_fallback) ["eurex"] "api");
    [exact Hc|reflexivity|reflexivity].
Defined.

(** ** Branch history *)

Lemma guarded_remove (x : string) (l : list string) :
  (if list_in x l then list_remove x l else Ok l) = Ok (remove1 x l).
Proof.
  induction l as [|y l IH]; [reflexivity|].
  unfold list_in in *. simpl.
  rewrite (String.eqb_sym x y).
  destruct (String.eqb y x); simpl; [reflexivity|].
  destruct (existsb (String.eqb x) l).
  - rewrite IH. reflexivity.
  - injection IH as <-. reflexivity.
Qed.

Lemma remove1_In (x y : string) (l : list string) :
  In y (remove1 x l) -> In y l.
Proof.
  induction l as [|z l IH]; simpl; [tauto|].
  destruct (String.eqb z x); simpl; tauto.
Qed.

Lemma remove1_absent (x : string) (l : list string) :
  ~ In x l -> remove1 x l = l.
Proof.
  induction l as [|z l IH]; simpl; intro H; [reflexivity|].
  destruct (String.eqb z x) eqn:E.
  - apply String.eqb_eq in E. tauto.
  - rewrite IH; tauto.
Qed.

Lemma remove1_app_absent (x : string) (a l : list string) :
  ~ In x a -> remove1 x (a ++ l) = a ++ remove1 x l.
Proof.
  induction a as [|z a IH]; simpl; intro H; [reflexivity|].
  destruct (String.eqb z x) eqn:E.
  - apply String.eqb_eq in E. tauto.
  - rewrite IH; tauto.
Qed.

Lemma remove1_without (x : string) (l : list string) :
  NoDup l -> remove1 x l = without x l.
Proof.
  unfold without. induction l as [|z l IH]; simpl; intro H; [reflexivity|].
  inversion H as [|z' l' Hz Hl]; subst.
  destruct (String.eqb z x) eqn:E; simpl.
  - apply String.eqb_eq in E. subst z.
    rewrite <- (remove1_absent x l Hz) at 1. apply IH. exact Hl.
  - rewrite (IH Hl). reflexivity.
Qed.

Lemma without_absent (x : string) (l : list string) : ~ In x (without x l).
Proof.
  unfold without. intro H. apply filter_In in H. destruct H as [_ H].
  rewrite String.eqb_refl in H. discriminate.
Qed.

Lemma NoDup_remove1 (x : string) (l : list string) :
  NoDup l -> NoDup (x :: remove1 x l).
Proof.
  intro H. rewrite (remove1_without x l H). constructor.
  - apply without_absent.
  - apply NoDup_filter. exact H.
Qed.

Lemma firstn_In_inv {A : Type} (n : nat) (l : list A) (x : A) :
  In x (firstn n l) -> In x l.
Proof.
  intro H. rewrite <- (firstn_skipn n l). apply in_or_app. left. exact H.
Qed.

Lemma NoDup_firstn_keep {A : Type} (n : nat) (l : list A) :
  NoDup l -> NoDup (firstn n l).
Proof.
  intro H. rewrite <- (firstn_skipn n l) in H.
  exact (NoDup_app_remove_r _ _ H).
Qed.

Lemma touch_ok (x : string) (h : list string) :
  lower x <> "dev" -> history_ok h -> history_ok (touch x h).
Proof.
  intros Hx (Hlen & Hdev & Hnd). unfold touch. repeat split.
  - apply firstn_le_length.
  - intros b Hb. apply firstn_In_inv in Hb. destruct Hb as [<-|Hb].
    + exact Hx.
    + apply Hdev. eapply remove1_In. exact Hb.
  - apply NoDup_firstn_keep. apply NoDup_remove1. exact Hnd.
Qed.

Lemma write_readable {D : Type} (w : write_outcome) (d : D) (f : file D) :
  f <> Unreadable ->
  write w d f = match w with
                | Written => Parsed d
                | Refused => f
                | Torn => Malformed
                end.
Proof. destruct f; [reflexivity|congruence|reflexivity|reflexivity]. Qed.

Lemma write_written {D : Type} (d : D) (f : file D) :
  f <> Unreadable -> write Written d f = Parsed d.
Proof. intro H. rewrite (write_readable Written d f H). reflexivity. Qed.

Lemma load_branch_cache_readable (f : file branches_document)
    (h : list string) :
  load_branch_cache f = Ok h -> f <> Unreadable.
Proof. intros H ->. discriminate. Qed.

(** On a file that can be loaded, a load after a save that wrote returns
    what was saved. *)
Lemma load_after_save (branches : list string) (f : file branches_document)
    (h : list string) :
  load_branch_cache f = Ok h ->
  load_branch_cache (save_branch_cache Written branches f) = Ok branches.
Proof.
  intro H. unfold save_branch_cache.
  rewrite (write_written _ f (load_branch_cache_readable f h H)).
  reflexivity.
Qed.

(** What a call for a name other than "dev" does to the file. *)
Lemma add_branch_to_cache_touch (w : write_outcome) (x : string)
    (f : file branches_document) (h : list string) :
  lower x <> "dev" -> load_branch_cache f = Ok h ->
  add_branch_to_cache w x f = Ok (save_branch_cache w (touch x h) f).
Proof.
  intros Hx Hload. unfold add_branch_to_cache.
  rewrite (proj2 (String.eqb_neq _ _) Hx), Hload. simpl.
  rewrite guarded_remove. reflexivity.
Qed.

Lemma add_branch_to_cache_dev (w : write_outcome) (x : string)
    (f : file branches_document) :
  lower x = "dev" -> add_branch_to_cache w x f = Ok f.
Proof.
  intro Hx. unfold add_branch_to_cache. rewrite Hx. reflexivity.
Qed.

(** C7: a call of [add_branch_to_cache] on a history of at most 50 pairwise
    distinct names none of which is "dev" in any letter case leaves such a
    history, whatever becomes of the write; and a call for "dev", "Dev" or
    "DEV", or any other casing, returns without touching the file. *)
Theorem add_branch_to_cache_invariants :
  (forall (w : write_outcome) (x : string) (f : file branches_document)
          (h : list string),
      load_branch_cache f = Ok h -> history_ok h ->
      exists f' h',
        add_branch_to_cache w x f = Ok f'
        /\ load_branch_cache f' = Ok h'
        /\ history_ok h')
  /\ (forall (w : write_outcome) (x : string) (f : file branches_document),
         lower x = "dev" -> add_branch_to_cache w x f = Ok f)
  /\ (forall (w : write_outcome) (f : file branches_document),
         add_branch_to_cache w "dev" f = Ok f
         /\ add_branch_to_cache w "Dev" f = Ok f
         /\ add_branch_to_cache w "DEV" f = Ok f).
Proof.
  split; [|split].
  - intros w x f h Hload Hok.
    destruct (String.eqb (lower x) "dev") eqn:E.
    + apply String.eqb_eq in E. exists f, h.
      rewrite (add_branch_to_cache_dev w x f E). auto.
    + apply String.eqb_neq in E.
      rewrite (add_branch_to_cache_touch w x f h E Hload).
      unfold save_branch_cache.
      rewrite (write_readable w _ f (load_branch_cache_readable f h Hload)).
      destruct w.
      * exists (Parsed (BranchesDict (Some (touch x h)))), (touch x h).
        repeat split; try reflexivity; apply touch_ok; assumption.
      * exists f, h. auto.
      * exists Malformed, []. repeat split; try reflexivity.
        -- simpl. lia.
        -- intros b [].
        -- constructor.
  - exact add_branch_to_cache_dev.
  - intros w f. repeat split; apply add_branch_to_cache_dev; reflexivity.
Qed.

Lemma add_branch_to_cache_invariants_witness :
  load_branch_cache (Parsed (BranchesDict (Some ["main"; "fix/a"])))
  = Ok ["main"; "fix/a"]
  /\ history_ok ["main"; "fix/a"]
  /\ exists f' h',
       add_branch_to_cache Written "fix/a"
         (Parsed (BranchesDict (Some ["main"; "fix/a"]))) = Ok f'
       /\ load_branch_cache f' = Ok h'
       /\ history_ok h'.
Proof.
  assert (Hok : history_ok ["main"; "fix/a"]).
  { repeat split.
    - simpl. lia.
    - intros b [<-|[<-|[]]]; discriminate.
    - constructor; [intros [H|[]]; discriminate|].
      constructor; [intros []|constructor]. }
  split; [reflexivity|]. split; [exact Hok|].
  apply (proj1 add_branch_to_cache_invariants Written "fix/a"
           (Parsed (BranchesDict (Some ["main"; "fix/a"])))
           ["main"; "fix/a"]);
    [reflexivity|exact Hok].
Defined.

(** A sequence of calls, each of which writes, on the loaded history. *)
Lemma add_branches_touch (names : list string) :
  forall (f : file branches_document) (h : list string),
    load_branch_cache f = Ok h ->
    (forall n, In n names -> lower n <> "dev") ->
    exists f',
      add_branches names f = Ok f'
      /\ load_branch_cache f' = Ok (fold_left (fun h n => touch n h) names h).
Proof.
  induction names as [|n names IH]; intros f h Hload Hdev.
  - exists f. split; [reflexivity|exact Hload].
  - simpl.
    rewrite (add_branch_to_cache_touch Written n f h
               (Hdev n (or_introl eq_refl)) Hload).
    simpl. apply IH.
    + exact (load_after_save (touch n h) f h Hload).
    + intros m Hm. apply Hdev. right. exact Hm.
Qed.

(** One more distinct name lengthens the run of touched names at the
    front. *)
Lemma touch_prefix (n : string) (ms state u : list string) :
  ~ In n ms ->
  state = firstn 50 (rev ms) ++ u ->
  exists u', touch n state = firstn 50 (n :: rev ms) ++ u'.
Proof.
  intros Hn ->. unfold touch.
  assert (Hn' : ~ In n (firstn 50 (rev ms))).
  { intro H. apply firstn_In_inv in H. apply in_rev in H. tauto. }
  rewrite (remove1_app_absent n _ u Hn').
  change (firstn 50 (n :: firstn 50 (rev ms) ++ remove1 n u))
    with (n :: firstn 49 (firstn 50 (rev ms) ++ remove1 n u)).
  rewrite firstn_app, firstn_firstn.
  change (Nat.min 49 50) with 49.
  exists (firstn (49 - List.length (firstn 50 (rev ms))) (remove1 n u)).
  reflexivity.
Qed.

Lemma touches_prefix (names : list string) :
  forall (ms state : list string),
    NoDup (ms ++ names) ->
    (exists u, state = firstn 50 (rev ms) ++ u) ->
    exists u,
      fold_left (fun h n => touch n h) names state
      = firstn 50 (rev (ms ++ names)) ++ u.
Proof.
  induction names as [|n names IH]; intros ms state Hnd (u & Hu).
  - exists u. rewrite app_nil_r. exact Hu.
  - simpl.
    assert (Hn : ~ In n ms).
    { apply NoDup_remove_2 in Hnd. intro H. apply Hnd.
      apply in_or_app. left. exact H. }
    destruct (touch_prefix n ms state u Hn Hu) as (u' & Hu').
    replace (ms ++ n :: names) with ((ms ++ [n]) ++ names) in *
      by (rewrite <- app_assoc; reflexivity).
    apply IH; [exact Hnd|].
    exists u'. rewrite rev_app_distr. exact Hu'.
Qed.

Lemma touches_length (names : list string) :
  forall h : list string,
    names <> [] ->
    List.length (fold_left (fun h n => touch n h) names h) <= 50.
Proof.
  induction names as [|n [|n' names] IH]; intros h Hne.
  - congruence.
  - exact (firstn_le_length 50 (n :: remove1 n h)).
  - change (fold_left (fun h n => touch n h) (n :: n' :: names) h)
      with (fold_left (fun h n => touch n h) (n' :: names) (touch n h)).
    apply IH. discriminate.
Qed.

(** Fifty or more distinct names leave exactly the fifty touched last. *)
Lemma touches_fifty (names h : list string) :
  NoDup names -> 50 <= List.length names ->
  fold_left (fun h n => touch n h) names h = firstn 50 (rev names).
Proof.
  intros Hnd Hlen.
  destruct (touches_prefix names [] h Hnd) as (u & Hu).
  { exists h. reflexivity. }
  change ([] ++ names) with names in Hu.
  assert (Hne : names <> []) by (destruct names; simpl in Hlen; [lia|discriminate]).
  assert (H50 := touches_length names h Hne).
  rewrite Hu, length_app, firstn_length_le in H50
    by (rewrite length_rev; exact Hlen).
  destruct u; [|simpl in H50; lia].
  rewrite Hu. apply app_nil_r.
Qed.

Lemma touch_cons (x : string) (h : list string) :
  touch x h = x :: firstn 49 (remove1 x h).
Proof. reflexivity. Qed.

Lemma remove1_head (x : string) (t : list string) : remove1 x (x :: t) = t.
Proof. simpl. rewrite String.eqb_refl. reflexivity. Qed.

(** A second call in a row changes nothing. *)
Lemma touch_twice (x : string) (h : list string) :
  touch x (touch x h) = touch x h.
Proof.
  rewrite (touch_cons x h), touch_cons, remove1_head, firstn_firstn.
  reflexivity.
Qed.

(** C8: a call for a name other than "dev" that writes leaves the history
    with the first element equal to the name deleted, the name put at the
    front and all but the first 50 elements dropped; on a history without
    duplicates that deletes every element equal to the name.  Hence 51
    calls for pairwise distinct names leave the 50 names touched last, the
    most recent first, and two calls in a row for one name leave it at the
    front and nowhere else. *)
Theorem add_branch_to_cache_front :
  (forall (x : string) (f : file branches_document) (h : list string),
      lower x <> "dev" -> load_branch_cache f = Ok h ->
      exists f',
        add_branch_to_cache Written x f = Ok f'
        /\ load_branch_cache f' = Ok (firstn 50 (x :: remove1 x h))
        /\ (NoDup h ->
            load_branch_cache f' = Ok (firstn 50 (x :: without x h))))
  /\ (forall (names : list string) (f : file branches_document)
             (h : list string),
         load_branch_cache f = Ok h ->
         List.length names = 51 -> NoDup names ->
         (forall n, In n names -> lower n <> "dev") ->
         exists f',
           add_branches names f = Ok f'
           /\ load_branch_cache f' = Ok (firstn 50 (rev names))
           /\ List.length (firstn 50 (rev names)) = 50)
  /\ (forall (x : string) (f : file branches_document) (h : list string),
         lower x <> "dev" -> load_branch_cache f = Ok h -> NoDup h ->
         exists f' t,
           add_branches [x; x] f = Ok f'
           /\ load_branch_cache f' = Ok (x :: t)
           /\ ~ In x t /\ NoDup (x :: t)).
Proof.
  split; [|split].
  - intros x f h Hx Hload.
    exists (save_branch_cache Written (touch x h) f).
    split; [exact (add_branch_to_cache_touch Written x f h Hx Hload)|].
    split; [exact (load_after_save (touch x h) f h Hload)|].
    intro Hnd. rewrite <- (remove1_without x h Hnd).
    exact (load_after_save (touch x h) f h Hload).
  - intros names f h Hload Hlen Hnd Hdev.
    destruct (add_branches_touch names f h Hload Hdev) as (f' & Hf' & Hl').
    exists f'. split; [exact Hf'|]. split.
    + rewrite Hl', (touches_fifty names h Hnd) by lia. reflexivity.
    + apply firstn_length_le. rewrite length_rev. lia.
  - intros x f h Hx Hload Hnd.
    assert (Hdev : forall n, In n [x; x] -> lower n <> "dev").
    { intros n [<-|[<-|[]]]; exact Hx. }
    destruct (add_branches_touch [x; x] f h Hload Hdev) as (f' & Hf' & Hl').
    exists f', (firstn 49 (remove1 x h)). split; [exact Hf'|].
    assert (Hnd1 : NoDup (x :: firstn 49 (remove1 x h))).
    { exact (NoDup_firstn_keep 50 _ (NoDup_remove1 x h Hnd)). }
    split; [|split; [exact (proj1 (proj1 (NoDup_cons_iff _ _) Hnd1))|exact Hnd1]].
    rewrite Hl'.
    change (fold_left (fun h n => touch n h) [x; x] h)
      with (touch x (touch x h)).
    rewrite touch_twice, touch_cons. reflexivity.
Qed.

Lemma distinct_NoDup (l : list string) : distinct l = true -> NoDup l.
Proof.
  induction l as [|x l IH]; simpl; intro H; [constructor|].
  apply andb_true_iff in H. destruct H as [Hx Hl].
  constructor; [|exact (IH Hl)].
  intro Hin. apply negb_true_iff in Hx.
  assert (E : list_in x l = true).
  { apply existsb_exists. exists x. split; [exact Hin|apply String.eqb_refl]. }
  congruence.
Qed.

Lemma sample_names_not_dev (n : string) :
  In n sample_names -> lower n <> "dev".
Proof.
  intros Hin E.
  assert (H : forallb (fun n => negb (String.eqb (lower n) "dev")) sample_names
              = true) by (vm_compute; reflexivity).
  rewrite forallb_forall in H. specialize (H n Hin).
  rewrite E in H. discriminate.
Qed.

Lemma add_branch_to_cache_front_witness :
  load_branch_cache Missing = Ok []
  /\ List.length sample_names = 51
  /\ NoDup sample_names
  /\ (forall n, In n sample_names -> lower n <> "dev")
  /\ exists f',
       add_branches sample_names Missing = Ok f'
       /\ load_branch_cache f' = Ok (firstn 50 (rev sample_names))
       /\ List.length (firstn 50 (rev sample_names)) = 50.
Proof.
  assert (Hnd : NoDup sample_names)
    by (apply distinct_NoDup; vm_compute; reflexivity).
  split; [reflexivity|]. split; [reflexivity|]. split; [exact Hnd|].
  split; [exact sample_names_not_dev|].
  apply (proj1 (proj2 add_branch_to_cache_front) sample_names Missing []);
    [reflexivity|reflexivity|exact Hnd|exact sample_names_not_dev].
Defined.

(** ** Job cache *)

Section JobCacheProperties.

Variable payload : Type.

(** A record no older than the time-to-live is returned. *)
Lemma load_jobs_cache_fresh (now t : Z) (jobs : payload) :
  (now - t <= minutes CACHE_DURATION_MINUTES)%Z ->
  load_jobs_cache payload now
    (Parsed (JobsDict (Some (NaiveTime t)) (Some jobs)))
  = Ok (Some jobs).
Proof.
  intro H. unfold load_jobs_cache. simpl.
  rewrite (proj2 (Z.ltb_ge _ _) H). reflexivity.
Qed.

(** An older record is a miss. *)
Lemma load_jobs_cache_stale (now t : Z) (jobs : option payload) :
  (minutes CACHE_DURATION_MINUTES < now - t)%Z ->
  load_jobs_cache payload now (Parsed (JobsDict (Some (NaiveTime t)) jobs))
  = Ok None.
Proof.
  intro H. unfold load_jobs_cache. simpl.
  rewrite (proj2 (Z.ltb_lt _ _) H). reflexivity.
Qed.

(** The misses the handler covers: no file, text that is not JSON, a
    dictionary without ['timestamp'] or with a timestamp that is not ISO
    text, a fresh record without ['jobs']. *)
Lemma load_jobs_cache_miss (now : Z) :
  load_jobs_cache payload now Missing = Ok None
  /\ load_jobs_cache payload now Malformed = Ok None
  /\ (forall jobs,
         load_jobs_cache payload now (Parsed (JobsDict None jobs)) = Ok None)
  /\ (forall jobs,
         load_jobs_cache payload now
           (Parsed (JobsDict (Some NotIsoText) jobs)) = Ok None)
  /\ (forall t,
         load_jobs_cache payload now
           (Parsed (JobsDict (Some (NaiveTime t)) None)) = Ok None).
Proof.
  repeat split; try reflexivity.
  intro t. unfold load_jobs_cache. simpl.
  destruct (minutes CACHE_DURATION_MINUTES <? now - t)%Z; reflexivity.
Qed.

(** A payload comes back only from a readable, well-formed, fresh record. *)
Lemma load_jobs_cache_some (now : Z) (f : file (jobs_document payload))
    (jobs : payload) :
  load_jobs_cache payload now f = Ok (Some jobs) <->
  exists t,
    f = Parsed (JobsDict (Some (NaiveTime t)) (Some jobs))
    /\ (now - t <= minutes CACHE_DURATION_MINUTES)%Z.
Proof.
  split.
  - unfold load_jobs_cache.
    destruct f as [| | |[|[[t|t| |]|] [j|]]]; simpl; try discriminate.
    + destruct (minutes CACHE_DURATION_MINUTES <? now - t)%Z eqn:E;
        simpl; [discriminate|].
      intro H. injection H as ->. exists t. split; [reflexivity|].
      apply Z.ltb_ge. exact E.
    + destruct (minutes CACHE_DURATION_MINUTES <? now - t)%Z; discriminate.
  - intros (t & -> & H). apply load_jobs_cache_fresh. exact H.
Qed.

(** A load after a save that wrote, on a file that can be read: the payload
    while the record is fresh, a miss afterwards. *)
Lemma load_after_save_jobs (saved now : Z) (jobs : payload)
    (f : file (jobs_document payload)) :
  f <> Unreadable ->
  ((now - saved <= minutes CACHE_DURATION_MINUTES)%Z ->
   load_jobs_cache payload now (save_jobs_cache payload Written saved jobs f)
   = Ok (Some jobs))
  /\ ((minutes CACHE_DURATION_MINUTES < now - saved)%Z ->
      load_jobs_cache payload now (save_jobs_cache payload Written saved jobs f)
      = Ok None).
Proof.
  intro Hf. unfold save_jobs_cache. rewrite (write_written _ f Hf).
  split; intro H.
  - apply load_jobs_cache_fresh. exact H.
  - apply load_jobs_cache_stale. exact H.
Qed.

(** C9: the handler of [load_jobs_cache] names [JSONDecodeError],
    [KeyError] and [ValueError] only.  A cache file that cannot be opened,
    or that holds JSON of another shape (not a dictionary, a timestamp that
    is not a string, a timestamp with a UTC offset), makes the call raise
    instead of returning [None]. *)
Theorem load_jobs_cache_raises (now : Z) :
  load_jobs_cache payload now Unreadable = Raise OSError
  /\ load_jobs_cache payload now (Parsed JobsNotDict) = Raise TypeError
  /\ (forall jobs,
         load_jobs_cache payload now (Parsed (JobsDict (Some NotText) jobs))
         = Raise TypeError)
  /\ (forall t jobs,
         load_jobs_cache payload now
           (Parsed (JobsDict (Some (AwareTime t)) jobs))
         = Raise TypeError).
Proof. repeat split. Qed.

End JobCacheProperties.

(** * Further properties of the resolvers *)

Lemma string_app_assoc (a b c : string) :
  ((a ++ b) ++ c)%string = (a ++ b ++ c)%string.
Proof.
  induction a as [|x a IH]; simpl; [reflexivity|].
  rewrite IH. reflexivity.
Qed.

Lemma str_in_trans (a b c : string) :
  str_in a b = true -> str_in b c = true -> str_in a c = true.
Proof.
  intros Hab Hbc.
  apply str_in_split in Hab. destruct Hab as (u & v & ->).
  apply str_in_split in Hbc. destruct Hbc as (x & y & ->).
  apply str_in_split. exists (x ++ u)%string, (v ++ y)%string.
  rewrite !string_app_assoc. reflexivity.
Qed.

Lemma lower_empty (s : string) : lower s = "" -> s = "".
Proof. destruct s; [reflexivity|discriminate]. Qed.

Lemma ci_contains_nonempty (p s : string) :
  p <> "" -> ci_contains p s = true -> s <> "".
Proof.
  intros Hp H ->. unfold ci_contains in H. simpl in H.
  rewrite orb_false_r in H.
  destruct (lower p) eqn:E; [|discriminate].
  apply lower_empty in E. contradiction.
Qed.

Lemma find_exists {A : Type} (test : A -> bool) (l : list A) :
  (exists x, In x l /\ test x = true) -> exists r, find test l = Some r.
Proof.
  intros (x & Hin & Hx). destruct (find test l) as [r|] eqn:F.
  - exists r. reflexivity.
  - rewrite (find_none test l F x Hin) in Hx. discriminate.
Qed.

Lemma shortest_first_In (l : list string) (x : string) :
  shortest_first l x -> In x l.
Proof.
  intros (l1 & l2 & -> & _). apply in_or_app. right. left. reflexivity.
Qed.

Lemma first_of_In {A : Type} (l : list A) (x : A) : first_of l x -> In x l.
Proof. intros (l2 & ->). left. reflexivity. Qed.

(** What the cascade returns is a candidate that contains the partial
    name. *)
Lemma cascade_sound (residual : list string -> string -> Prop) (p : string)
    (candidates : list string) (s : string) :
  (forall l x, residual l x -> In x l) ->
  cascade residual p candidates (Some s) ->
  In s candidates /\ ci_contains p s = true.
Proof.
  intros Hres H.
  assert (HM : In s (substring_matches p candidates) ->
               In s candidates /\ ci_contains p s = true)
    by (intro Hin; apply filter_In in Hin; exact Hin).
  inversion H as [c Hc|c _ Hu|c _ _ Hs|c _ _ _ Hr|]; subst.
  - apply first_passing_In in Hc. destruct Hc as [Hin Heq].
    split; [exact Hin|apply ci_equal_contains; exact Heq].
  - apply HM. rewrite Hu. left. reflexivity.
  - apply HM. apply first_passing_In in Hs. tauto.
  - apply HM. eapply Hres. exact Hr.
Qed.

Lemma cascade_none (residual : list string -> string -> Prop) (p : string)
    (candidates : list string) :
  cascade residual p candidates None ->
  forall c, In c candidates -> ci_contains p c = false.
Proof.
  intro H. inversion H as [| | | |Hn]. apply filter_nil_iff. exact Hn.
Qed.

(** Distinct lowered names make a list distinct up to letter case. *)
Lemma case_distinct_lower (l : list string) :
  NoDup (map lower l) -> case_distinct l.
Proof.
  induction l as [|x l IH]; intros Hnd a b Ha Hb E; [destruct Ha|].
  simpl in Hnd. apply NoDup_cons_iff in Hnd. destruct Hnd as [Hx Hl].
  destruct Ha as [<-|Ha], Hb as [<-|Hb].
  - reflexivity.
  - exfalso. apply Hx. rewrite E. apply in_map. exact Hb.
  - exfalso. apply Hx. rewrite <- E. apply in_map. exact Ha.
  - exact (IH Hl a b Ha Hb E).
Qed.

(** In a list distinct up to letter case, the first element equal to an
    element up to letter case is that element. *)
Lemma find_own_spelling (l : list string) (s : string) :
  case_distinct l -> In s l -> find (ci_equal s) l = Some s.
Proof.
  intros Hcd Hin.
  destruct (find_exists (ci_equal s) l) as (y & Hy).
  { exists s. split; [exact Hin|]. unfold ci_equal. apply String.eqb_refl. }
  rewrite Hy. apply find_some in Hy. destruct Hy as [Hy1 Hy2].
  unfold ci_equal in Hy2. apply String.eqb_eq in Hy2.
  rewrite (Hcd y s Hy1 Hin Hy2). reflexivity.
Qed.

(** Service mode, for a non-empty partial name and any candidate list. *)
Lemma find_matching_service_runs (p : string) (C : list string) :
  p <> "" ->
  exists o,
    find_matching_service p C = Ok o /\ cascade shortest_first p C o.
Proof.
  intro Hp. destruct C as [|c C].
  - exists None. split.
    + unfold find_matching_service. rewrite orb_true_r. reflexivity.
    + apply cascade_nothing. reflexivity.
  - rewrite (find_matching_service_tier p (c :: C) Hp) by discriminate.
    apply run_cascade_cascade. exact min_by_len_shortest.
Qed.

(** X1: for a non-empty partial name, [find_matching_service] returns
    [None] exactly when no candidate contains the partial name, letter case
    apart, and whatever name it returns is a candidate that contains it. *)
Theorem find_matching_service_sound_complete (p : string) (C : list string) :
  p <> "" ->
  (find_matching_service p C = Ok None <->
   forall c, In c C -> ci_contains p c = false)
  /\ (forall s, find_matching_service p C = Ok (Some s) ->
                In s C /\ ci_contains p s = true).
Proof.
  intro Hp. destruct (find_matching_service_runs p C Hp) as (o & Ho & Hc).
  rewrite Ho. split.
  - split.
    + intro E. injection E as ->. exact (cascade_none _ _ _ Hc).
    + intro Hno. destruct o as [s|]; [|reflexivity].
      destruct (cascade_sound _ _ _ _ shortest_first_In Hc) as [Hin Hs].
      rewrite (Hno s Hin) in Hs. discriminate.
  - intros s E. injection E as ->.
    exact (cascade_sound _ _ _ _ shortest_first_In Hc).
Qed.

Lemma find_matching_service_sound_complete_witness :
  "eur" <> ""
  /\ (find_matching_service "eur" ["clearing"; "risk"] = Ok None <->
      forall c, In c ["clearing"; "risk"] -> ci_contains "eur" c = false)
  /\ (forall s, find_matching_service "eur" ["clearing"; "risk"] = Ok (Some s) ->
                In s ["clearing"; "risk"] /\ ci_contains "eur" s = true).
Proof.
  split; [discriminate|].
  apply (find_matching_service_sound_complete "eur" ["clearing"; "risk"]).
  discriminate.
Defined.

(** X2: over a candidate list in which no two different names are equal up
    to letter case, a name that [find_matching_service] returned for a
    non-empty partial name resolves to itself. *)
Theorem find_matching_service_stable (p : string) (C : list string)
    (s : string) :
  p <> "" -> case_distinct C ->
  find_matching_service p C = Ok (Some s) ->
  find_matching_service s C = Ok (Some s).
Proof.
  intros Hp Hcd H.
  destruct (find_matching_service_runs p C Hp) as (o & Ho & Hc).
  rewrite Ho in H. injection H as ->.
  destruct (cascade_sound _ _ _ _ shortest_first_In Hc) as [Hin Hs].
  assert (Hne : s <> "") by exact (ci_contains_nonempty p s Hp Hs).
  assert (HC : C <> []) by (intros ->; exact Hin).
  rewrite (find_matching_service_tier s C Hne HC). unfold run_cascade.
  rewrite (find_own_spelling C s Hcd Hin).
  reflexivity.
Qed.

Lemma find_matching_service_stable_witness :
  "b" <> "" /\ case_distinct ["abcd"; "xbx"; "ybz"]
  /\ find_matching_service "b" ["abcd"; "xbx"; "ybz"] = Ok (Some "xbx")
  /\ find_matching_service "xbx" ["abcd"; "xbx"; "ybz"] = Ok (Some "xbx").
Proof.
  assert (Hcd : case_distinct ["abcd"; "xbx"; "ybz"])
    by (apply case_distinct_lower, distinct_NoDup; reflexivity).
  split; [discriminate|]. split; [exact Hcd|]. split; [reflexivity|].
  apply (find_matching_service_stable "b" ["abcd"; "xbx"; "ybz"] "xbx");
    [discriminate|exact Hcd|reflexivity].
Defined.

(** Branch mode: the two tiers and what they return. *)
Lemma find_matching_branch_runs (cached available : list string) (p : string) :
  p <> "" ->
  exists o1 o2,
    cascade first_of p cached o1
    /\ cascade shortest_first p available o2
    /\ find_matching_branch cached available p =
         Ok (match o1 with
             | Some b => b
             | None => match o2 with Some b => b | None => p end
             end).
Proof.
  intro Hp. rewrite (find_matching_branch_tiers cached available p Hp).
  destruct (run_cascade_cascade first_of item0 p cached (@item0_first_of string))
    as (o1 & -> & C1).
  destruct (run_cascade_cascade shortest_first min_by_len p available
              min_by_len_shortest) as (o2 & E2 & C2).
  exists o1, o2. split; [exact C1|]. split; [exact C2|].
  simpl. destruct o1; [reflexivity|]. rewrite E2. simpl.
  destruct o2; reflexivity.
Qed.

(** X3: for a non-empty partial name the branch [find_matching_branch]
    returns is a cached branch containing the partial name; or, when no
    cached branch contains it, an available branch containing it; or, when
    no branch at all contains it, the partial name itself. *)
Theorem find_matching_branch_origin (cached available : list string)
    (p r : string) :
  p <> "" ->
  find_matching_branch cached available p = Ok r ->
  (In r cached /\ ci_contains p r = true)
  \/ ((forall b, In b cached -> ci_contains p b = false)
      /\ In r available /\ ci_contains p r = true)
  \/ ((forall b, In b cached -> ci_contains p b = false)
      /\ (forall b, In b available -> ci_contains p b = false)
      /\ r = p).
Proof.
  intros Hp H.
  destruct (find_matching_branch_runs cached available p Hp)
    as (o1 & o2 & C1 & C2 & E).
  rewrite E in H. injection H as <-.
  destruct o1 as [b|].
  - left. exact (cascade_sound _ _ _ _ (@first_of_In string) C1).
  - right. assert (Hc := cascade_none _ _ _ C1).
    destruct o2 as [b|].
    + left. split; [exact Hc|].
      exact (cascade_sound _ _ _ _ shortest_first_In C2).
    + right. split; [exact Hc|]. split; [|reflexivity].
      exact (cascade_none _ _ _ C2).
Qed.

Lemma find_matching_branch_origin_witness :
  "rel" <> ""
  /\ find_matching_branch ["fix/a"] default_branches "rel" = Ok "release"
  /\ ((In "release" ["fix/a"] /\ ci_contains "rel" "release" = true)
      \/ ((forall b, In b ["fix/a"] -> ci_contains "rel" b = false)
          /\ In "release" default_branches
          /\ ci_contains "rel" "release" = true)
      \/ ((forall b, In b ["fix/a"] -> ci_contains "rel" b = false)
          /\ (forall b, In b default_branches -> ci_contains "rel" b = false)
          /\ "release" = "rel")).
Proof.
  split; [discriminate|]. split; [reflexivity|].
  apply (find_matching_branch_origin ["fix/a"] default_branches "rel" "release");
    [discriminate|reflexivity].
Defined.

(** X4: when neither the cached nor the available branches hold two
    different names equal up to letter case, a branch that
    [find_matching_branch] returned for a non-empty partial name resolves to
    itself against the same lists. *)
Theorem find_matching_branch_stable (cached available : list string)
    (p r : string) :
  p <> "" -> case_distinct cached -> case_distinct available ->
  find_matching_branch cached available p = Ok r ->
  find_matching_branch cached available r = Ok r.
Proof.
  intros Hp Hcc Hca H.
  destruct (find_matching_branch_runs cached available p Hp)
    as (o1 & o2 & C1 & C2 & E).
  rewrite E in H. injection H as <-.
  destruct o1 as [b|].
  - destruct (cascade_sound _ _ _ _ (@first_of_In string) C1) as [Hin Hb].
    assert (Hne : b <> "") by exact (ci_contains_nonempty p b Hp Hb).
    rewrite (find_matching_branch_tiers cached available b Hne).
    unfold run_cascade at 1.
    rewrite (find_own_spelling cached b Hcc Hin). reflexivity.
  - destruct o2 as [b|]; [|exact E].
    destruct (cascade_sound _ _ _ _ shortest_first_In C2) as [Hin Hb].
    assert (Hne : b <> "") by exact (ci_contains_nonempty p b Hp Hb).
    assert (Hc : forall c, In c cached -> ci_contains b c = false).
    { intros c Hcin. destruct (ci_contains b c) eqn:Hbc; [|reflexivity].
      rewrite <- (cascade_none _ _ _ C1 c Hcin). symmetry.
      exact (str_in_trans _ _ _ Hb Hbc). }
    rewrite (find_matching_branch_tiers cached available b Hne).
    rewrite (run_cascade_nothing item0 b cached Hc). simpl.
    unfold run_cascade.
    rewrite (find_own_spelling available b Hca Hin).
    reflexivity.
Qed.

Lemma find_matching_branch_stable_witness :
  "e" <> ""
  /\ case_distinct ["feature/x"; "fix/e"] /\ case_distinct default_branches
  /\ find_matching_branch ["feature/x"; "fix/e"] default_branches "e"
     = Ok "feature/x"
  /\ find_matching_branch ["feature/x"; "fix/e"] default_branches "feature/x"
     = Ok "feature/x".
Proof.
  assert (Hcc : case_distinct ["feature/x"; "fix/e"])
    by (apply case_distinct_lower, distinct_NoDup; reflexivity).
  assert (Hca : case_distinct default_branches)
    by (apply case_distinct_lower, distinct_NoDup; reflexivity).
  split; [discriminate|]. split; [exact Hcc|]. split; [exact Hca|].
  split; [reflexivity|].
  apply (find_matching_branch_stable ["feature/x"; "fix/e"] default_branches
           "e" "feature/x"); [discriminate|exact Hcc|exact Hca|reflexivity].
Defined.

(** X5: the default of the [--branch] option of [build] is "dev", which the
    history never holds.  On a history without "dev", when some cached
    branch contains "dev" the call [find_matching_branch("dev")] returns a
    cached branch, which is not "dev"; when none does and some available
    branch is "dev" up to letter case, it returns such a branch. *)
Theorem find_matching_branch_dev (cached available : list string) :
  (forall b, In b cached -> lower b <> "dev") ->
  ((exists b, In b cached /\ ci_contains "dev" b = true) ->
   exists r,
     find_matching_branch cached available "dev" = Ok r
     /\ In r cached /\ lower r <> "dev" /\ ci_contains "dev" r = true)
  /\ ((forall b, In b cached -> ci_contains "dev" b = false) ->
      (exists b, In b available /\ lower b = "dev") ->
      exists r,
        find_matching_branch cached available "dev" = Ok r
        /\ In r available /\ lower r = "dev").
Proof.
  intro Hdev. split.
  - intros (b & Hin & Hb).
    destruct (find_matching_branch_runs cached available "dev")
      as (o1 & o2 & C1 & _ & E); [discriminate|].
    destruct o1 as [r|].
    + exists r. split; [exact E|].
      destruct (cascade_sound _ _ _ _ (@first_of_In string) C1) as [Hr Hc].
      split; [exact Hr|]. split; [exact (Hdev r Hr)|exact Hc].
    + rewrite (cascade_none _ _ _ C1 b Hin) in Hb. discriminate.
  - intros Hno (b & Hin & Hb).
    rewrite (find_matching_branch_tiers cached available "dev")
      by discriminate.
    rewrite (run_cascade_nothing item0 "dev" cached Hno). simpl.
    unfold run_cascade.
    destruct (find_exists (ci_equal "dev") available) as (r & Hr).
    { exists b. split; [exact Hin|]. unfold ci_equal. rewrite Hb. reflexivity. }
    rewrite Hr. exists r. split; [reflexivity|].
    apply find_some in Hr. destruct Hr as [Hr1 Hr2].
    split; [exact Hr1|]. unfold ci_equal in Hr2.
    apply String.eqb_eq in Hr2. exact Hr2.
Qed.

Lemma find_matching_branch_dev_witness :
  (forall b, In b ["feature/devops"; "main"] -> lower b <> "dev")
  /\ (exists b, In b ["feature/devops"; "main"] /\ ci_contains "dev" b = true)
  /\ exists r,
       find_matching_branch ["feature/devops"; "main"] default_branches "dev"
       = Ok r
       /\ In r ["feature/devops"; "main"] /\ lower r <> "dev"
       /\ ci_contains "dev" r = true.
Proof.
  assert (H1 : forall b, In b ["feature/devops"; "main"] -> lower b <> "dev").
  { intros b [<-|[<-|[]]]; discriminate. }
  assert (H2 : exists b, In b ["feature/devops"; "main"]
                         /\ ci_contains "dev" b = true).
  { exists "feature/devops". split; [left; reflexivity|reflexivity]. }
  split; [exact H1|]. split; [exact H2|].
  exact (proj1 (find_matching_branch_dev ["feature/devops"; "main"]
                  default_branches H1) H2).
Defined.

(** X6: after a call of [add_branch_to_cache] for a non-empty name other
    than "dev" that writes, [find_matching_branch] resolves that name, in
    any letter case, to the name as it was stored. *)
Theorem find_matching_branch_after_add (x q : string)
    (f : file branches_document) (h available : list string) :
  x <> "" -> lower x <> "dev" ->
  load_branch_cache f = Ok h ->
  lower q = lower x ->
  exists f' h',
    add_branch_to_cache Written x f = Ok f'
    /\ load_branch_cache f' = Ok h'
    /\ find_matching_branch h' available q = Ok x.
Proof.
  intros Hx Hdev Hload Hq.
  exists (save_branch_cache Written (touch x h) f), (touch x h).
  split; [exact (add_branch_to_cache_touch Written x f h Hdev Hload)|].
  split; [exact (load_after_save (touch x h) f h Hload)|].
  assert (Hne : q <> "").
  { intros ->. apply Hx. apply lower_empty. symmetry. exact Hq. }
  rewrite (find_matching_branch_tiers _ available q Hne).
  unfold run_cascade at 1. rewrite touch_cons. cbn [find].
  unfold ci_equal at 1. rewrite Hq, String.eqb_refl. reflexivity.
Qed.

Lemma find_matching_branch_after_add_witness :
  "Fix/Login" <> "" /\ lower "Fix/Login" <> "dev"
  /\ load_branch_cache Missing = Ok []
  /\ lower "fix/login" = lower "Fix/Login"
  /\ exists f' h',
       add_branch_to_cache Written "Fix/Login" Missing = Ok f'
       /\ load_branch_cache f' = Ok h'
       /\ find_matching_branch h' default_branches "fix/login" = Ok "Fix/Login".
Proof.
  split; [discriminate|]. split; [discriminate|]. split; [reflexivity|].
  split; [reflexivity|].
  apply (find_matching_branch_after_add "Fix/Login" "fix/login" Missing []
           default_branches); try discriminate; reflexivity.
Defined.

(** * Service suggestions *)

Lemma list_in_In (x : string) (l : list string) :
  list_in x l = true <-> In x l.
Proof.
  unfold list_in. rewrite existsb_exists. split.
  - intros (y & Hy & E). apply String.eqb_eq in E. subst y. exact Hy.
  - intro H. exists x. split; [exact H|apply String.eqb_refl].
Qed.

Lemma slice_to_In {A : Type} (n : Z) (l : list A) (x : A) :
  In x (slice_to n l) -> In x l.
Proof.
  unfold slice_to. destruct (n <? 0)%Z; apply firstn_In_inv.
Qed.

Lemma slice_to_length {A : Type} (n : Z) (l : list A) :
  (0 <= n)%Z -> (Z.of_nat (List.length (slice_to n l)) <= n)%Z.
Proof.
  intro Hn. unfold slice_to.
  rewrite (proj2 (Z.ltb_ge n 0) Hn).
  pose proof (firstn_le_length (Z.to_nat n) l). lia.
Qed.

Lemma slice_to_nil {A : Type} (n : Z) : slice_to n (@nil A) = [].
Proof. unfold slice_to. destruct (n <? 0)%Z; apply firstn_nil. Qed.

Lemma slice_to_nonempty {A : Type} (n : Z) (l : list A) :
  (0 < n)%Z -> l <> [] -> slice_to n l <> [].
Proof.
  intros Hn Hl. unfold slice_to.
  rewrite (proj2 (Z.ltb_ge n 0)) by lia.
  destruct l as [|a l]; [congruence|].
  destruct (Z.to_nat n) eqn:E; [lia|discriminate].
Qed.

Lemma append_new_cons (test : string -> bool) (a : string)
    (l matches : list string) :
  append_new test (a :: l) matches =
  append_new test l
    (if test a && negb (list_in a matches) then matches ++ [a] else matches).
Proof. reflexivity. Qed.

Lemma append_new_In (test : string -> bool) (l : list string) :
  forall (matches : list string) (x : string),
    In x (append_new test l matches) <->
    In x matches \/ (In x l /\ test x = true).
Proof.
  induction l as [|a l IH]; intros matches x.
  - simpl. tauto.
  - rewrite append_new_cons, IH.
    destruct (test a) eqn:Ta; simpl andb.
    + destruct (list_in a matches) eqn:Ia; simpl negb; cbv iota.
      * apply list_in_In in Ia. simpl In.
        intuition (subst; auto).
      * rewrite in_app_iff. simpl In.
        intuition (subst; auto).
    + simpl In. intuition (subst; auto; congruence).
Qed.

(** On a list without duplicates the loop appends the elements that pass
    and were not there before, in order. *)
Lemma append_new_filter (test : string -> bool) (l : list string) :
  forall matches : list string,
    NoDup l ->
    append_new test l matches =
    matches ++ filter (fun x => test x && negb (list_in x matches)) l.
Proof.
  induction l as [|a l IH]; intros matches Hnd.
  - simpl. rewrite app_nil_r. reflexivity.
  - inversion Hnd as [|a' l' Ha Hl]; subst.
    rewrite append_new_cons. simpl filter.
    destruct (test a && negb (list_in a matches)) eqn:E.
    + rewrite (IH _ Hl), <- app_assoc. simpl. do 2 f_equal.
      apply filter_ext_in. intros x Hx. f_equal. f_equal.
      unfold list_in. rewrite existsb_app. simpl.
      rewrite orb_false_r.
      destruct (String.eqb x a) eqn:Exa; [|apply orb_false_r].
      apply String.eqb_eq in Exa. subst x. contradiction.
    + exact (IH _ Hl).
Qed.

Lemma ci_equal_startswith (p s : string) :
  ci_equal p s = true -> ci_startswith p s = true.
Proof.
  unfold ci_equal, ci_startswith. intro H. apply String.eqb_eq in H.
  rewrite H. apply startswith_refl.
Qed.

Lemma ci_startswith_contains (p s : string) :
  ci_startswith p s = true -> ci_contains p s = true.
Proof. apply str_in_startswith. Qed.

(** The list before it is cut, for a non-empty partial name. *)
Lemma get_service_suggestions_matches (S : list string) (p : string)
    (max : Z) :
  p <> "" ->
  get_service_suggestions S p max =
  slice_to max
    (append_new (ci_contains p) S
       (append_new (ci_startswith p) S (filter (ci_equal p) S))).
Proof.
  intro Hp. unfold get_service_suggestions.
  rewrite (str_not_false p Hp). reflexivity.
Qed.

Lemma suggestion_matches_In (S : list string) (p s : string) :
  In s (append_new (ci_contains p) S
          (append_new (ci_startswith p) S (filter (ci_equal p) S)))
  <-> In s S /\ ci_contains p s = true.
Proof.
  rewrite !append_new_In, filter_In. split.
  - intros [[[H1 H2]|[H1 H2]]|H]; try tauto.
    + split; [exact H1|]. apply ci_equal_contains. exact H2.
    + split; [exact H1|]. apply ci_startswith_contains. exact H2.
  - tauto.
Qed.

(** X7: every suggestion is a service of the list; for a non-empty partial
    name it contains the partial name, letter case apart; and with a
    non-negative [max_suggestions] there are at most that many. *)
Theorem get_service_suggestions_sound (S : list string) (p : string)
    (max : Z) :
  (forall s, In s (get_service_suggestions S p max) ->
             In s S /\ (p <> "" -> ci_contains p s = true))
  /\ ((0 <= max)%Z ->
      (Z.of_nat (List.length (get_service_suggestions S p max)) <= max)%Z).
Proof.
  split.
  - intros s Hs. destruct p as [|c p].
    + split; [|congruence]. exact (slice_to_In _ _ _ Hs).
    + rewrite get_service_suggestions_matches in Hs by discriminate.
      apply slice_to_In, suggestion_matches_In in Hs. tauto.
  - intro Hmax. unfold get_service_suggestions.
    destruct (str_not p); apply slice_to_length; exact Hmax.
Qed.

Lemma get_service_suggestions_sound_witness :
  (0 <= 2)%Z
  /\ (Z.of_nat (List.length
                  (get_service_suggestions ["abc"; "ab"; "xab"; "AB"] "ab" 2))
      <= 2)%Z.
Proof.
  split; [lia|].
  apply (proj2 (get_service_suggestions_sound ["abc"; "ab"; "xab"; "AB"]
                  "ab" 2)).
  lia.
Defined.

(** X8: over a service list without duplicates and for a non-empty partial
    name, the suggestions are the services equal to the partial name, then
    the others that start with it, then the others that contain it, each
    group in the order of the list and letter case apart, cut to
    [max_suggestions]. *)
Theorem get_service_suggestions_order (S : list string) (p : string)
    (max : Z) :
  p <> "" -> NoDup S ->
  get_service_suggestions S p max =
  slice_to max
    (filter (ci_equal p) S
     ++ filter (fun s => ci_startswith p s && negb (ci_equal p s)) S
     ++ filter (fun s => ci_contains p s && negb (ci_startswith p s)) S).
Proof.
  intros Hp Hnd. rewrite (get_service_suggestions_matches S p max Hp).
  f_equal.
  assert (H2 : append_new (ci_startswith p) S (filter (ci_equal p) S) =
               filter (ci_equal p) S
               ++ filter (fun s => ci_startswith p s && negb (ci_equal p s)) S).
  { rewrite (append_new_filter _ S _ Hnd). f_equal.
    apply filter_ext_in. intros x Hx. f_equal. f_equal.
    destruct (ci_equal p x) eqn:E.
    - apply list_in_In, filter_In. tauto.
    - destruct (list_in x (filter (ci_equal p) S)) eqn:I; [|reflexivity].
      apply list_in_In, filter_In in I. destruct I as [_ I]. congruence. }
  rewrite H2, (append_new_filter _ S _ Hnd), <- app_assoc. do 2 f_equal.
  apply filter_ext_in. intros x Hx. f_equal.
  destruct (ci_startswith p x) eqn:E; simpl negb.
  - apply negb_false_iff, list_in_In, in_or_app.
    destruct (ci_equal p x) eqn:Eq.
    + left. apply filter_In. tauto.
    + right. apply filter_In. rewrite E, Eq. tauto.
  - apply negb_true_iff.
    destruct (list_in x _) eqn:I; [|reflexivity].
    apply list_in_In, in_app_or in I. destruct I as [I|I].
    + apply filter_In in I. destruct I as [_ I].
      apply ci_equal_startswith in I. congruence.
    + apply filter_In in I. destruct I as [_ I].
      rewrite E in I. discriminate.
Qed.

Lemma get_service_suggestions_order_witness :
  "ab" <> "" /\ NoDup ["abc"; "xab"; "AB"; "ab"]
  /\ get_service_suggestions ["abc"; "xab"; "AB"; "ab"] "ab" 3
     = ["AB"; "ab"; "abc"].
Proof.
  assert (Hnd : NoDup ["abc"; "xab"; "AB"; "ab"])
    by (apply distinct_NoDup; reflexivity).
  split; [discriminate|]. split; [exact Hnd|].
  rewrite (get_service_suggestions_order ["abc"; "xab"; "AB"; "ab"] "ab" 3);
    [reflexivity|discriminate|exact Hnd].
Defined.

(** X9: for a non-empty partial name and a positive [max_suggestions],
    there are no suggestions exactly when [find_matching_service] finds
    nothing: the commands that suggest services only after a failed match
    have none to show unless the partial name is empty. *)
Theorem get_service_suggestions_none (S : list string) (p : string)
    (max : Z) :
  p <> "" -> (0 < max)%Z ->
  (get_service_suggestions S p max = [] <->
   find_matching_service p S = Ok None).
Proof.
  intros Hp Hmax.
  destruct (find_matching_service_runs p S Hp) as (o & Ho & Hc).
  rewrite Ho, (get_service_suggestions_matches S p max Hp). split.
  - intro E. destruct o as [s|]; [|reflexivity]. exfalso.
    destruct (cascade_sound _ _ _ _ shortest_first_In Hc) as [Hin Hs].
    apply (slice_to_nonempty max _ Hmax) in E; [exact E|].
    intro En.
    assert (Hm := proj2 (suggestion_matches_In S p s) (conj Hin Hs)).
    rewrite En in Hm. exact Hm.
  - intro E. injection E as ->.
    assert (Hno := cascade_none _ _ _ Hc).
    destruct (append_new _ S _) as [|s l] eqn:En; [apply slice_to_nil|].
    exfalso.
    assert (Hm : In s (s :: l)) by (left; reflexivity).
    rewrite <- En in Hm. apply suggestion_matches_In in Hm.
    destruct Hm as [Hin Hs]. rewrite (Hno s Hin) in Hs. discriminate.
Qed.

Lemma get_service_suggestions_none_witness :
  "zz" <> "" /\ (0 < 10)%Z
  /\ (get_service_suggestions ["abc"; "xab"] "zz" 10 = [] <->
      find_matching_service "zz" ["abc"; "xab"] = Ok None).
Proof.
  split; [discriminate|]. split; [lia|].
  apply (get_service_suggestions_none ["abc"; "xab"] "zz" 10);
    [discriminate|lia].
Defined.

(** * Available branches *)

Lemma rstrip_idem (s : string) : rstrip (rstrip s) = rstrip s.
Proof.
  induction s as [|c s IH]; [reflexivity|].
  simpl. destruct (rstrip s) as [|d r] eqn:E.
  - destruct (isspace c) eqn:Ec; [reflexivity|].
    simpl. rewrite Ec. reflexivity.
  - change (rstrip (String c (String d r)))
      with (match rstrip (String d r) with
            | EmptyString =>
                if isspace c then EmptyString else String c EmptyString
            | r' => String c r'
            end).
    rewrite IH. reflexivity.
Qed.

(** Stripping on the right keeps a first character that is not white
    space. *)
Lemma rstrip_head (c : ascii) (s : string) :
  isspace c = false -> exists r, rstrip (String c s) = String c r.
Proof.
  intro Hc. simpl. destruct (rstrip s) as [|d r].
  - rewrite Hc. exists "". reflexivity.
  - exists (String d r). reflexivity.
Qed.

Lemma lstrip_head (s : string) :
  lstrip s = "" \/ exists c t, lstrip s = String c t /\ isspace c = false.
Proof.
  induction s as [|c s IH]; [left; reflexivity|].
  simpl. destruct (isspace c) eqn:Ec; [exact IH|].
  right. exists c, s. auto.
Qed.

Lemma lstrip_fixed (c : ascii) (t : string) :
  isspace c = false -> lstrip (String c t) = String c t.
Proof. intro Hc. simpl. rewrite Hc. reflexivity. Qed.

(** A stripped string is left alone by [strip]. *)
Lemma strip_idem (s : string) : strip (strip s) = strip s.
Proof.
  unfold strip. destruct (lstrip_head s) as [E|(c & t & E & Hc)].
  - rewrite E. reflexivity.
  - rewrite E. destruct (rstrip_head c t Hc) as (r & Er).
    rewrite Er, (lstrip_fixed c r Hc), <- Er. apply rstrip_idem.
Qed.

Lemma branch_of_line_stripped (line : string) :
  strip (branch_of_line line) = branch_of_line line.
Proof.
  unfold branch_of_line.
  destruct (startswith (strip line) "*").
  - destruct (startswith (strip (drop 1 (strip line))) "remotes/origin/");
      apply strip_idem.
  - destruct (startswith (strip line) "remotes/origin/"); apply strip_idem.
Qed.

Lemma collected_branches_ok (all lines : list string) :
  forall branches : list string,
    incl lines all ->
    NoDup branches ->
    (forall b, In b branches ->
       b <> "" /\ endswith b "/HEAD" = false
       /\ exists line, In line all /\ b = branch_of_line line) ->
    NoDup (collected_branches lines branches)
    /\ forall b, In b (collected_branches lines branches) ->
         b <> "" /\ endswith b "/HEAD" = false
         /\ exists line, In line all /\ b = branch_of_line line.
Proof.
  induction lines as [|line lines IH]; intros branches Hincl Hnd Hall.
  - split; assumption.
  - unfold collected_branches. simpl fold_left.
    apply IH.
    + intros x Hx. apply Hincl. right. exact Hx.
    + destruct (str_not (branch_of_line line)) eqn:E1; simpl; [exact Hnd|].
      destruct (list_in (branch_of_line line) branches) eqn:E2; simpl;
        [exact Hnd|].
      destruct (endswith (branch_of_line line) "/HEAD") eqn:E3; simpl;
        [exact Hnd|].
      apply NoDup_app; [exact Hnd|constructor; [intros []|constructor]|].
      intros x Hx [<-|[]]. apply list_in_In in Hx. congruence.
    + destruct (str_not (branch_of_line line)) eqn:E1; simpl; [exact Hall|].
      destruct (list_in (branch_of_line line) branches) eqn:E2; simpl;
        [exact Hall|].
      destruct (endswith (branch_of_line line) "/HEAD") eqn:E3; simpl;
        [exact Hall|].
      intros b Hb. apply in_app_or in Hb. destruct Hb as [Hb|[<-|[]]].
      * exact (Hall b Hb).
      * split; [intro E; rewrite E in E1; discriminate|].
        split; [exact E3|].
        exists line. split; [apply Hincl; left|]; reflexivity.
Qed.

Lemma default_branches_ok :
  NoDup default_branches
  /\ forall b, In b default_branches ->
       b <> "" /\ endswith b "/HEAD" = false /\ strip b = b.
Proof.
  split; [apply distinct_NoDup; reflexivity|].
  intros b [<-|[<-|[<-|[<-|[<-|[]]]]]];
    (split; [discriminate|split; reflexivity]).
Qed.

(** X10: whatever [git] does, [get_available_branches] returns a non-empty
    list without duplicates of non-empty names that carry no white space
    at either end and do not end with "/HEAD"; the list is the default list
    unless [git] ended with return code 0, and then every name is read off
    some line of its output. *)
Theorem get_available_branches_wellformed (git : git_run) :
  get_available_branches git <> []
  /\ NoDup (get_available_branches git)
  /\ (forall b, In b (get_available_branches git) ->
        b <> "" /\ endswith b "/HEAD" = false /\ strip b = b)
  /\ (get_available_branches git = default_branches
      \/ exists lines,
           git = GitCompleted 0 lines
           /\ forall b, In b (get_available_branches git) ->
                exists line, In line lines /\ b = branch_of_line line).
Proof.
  destruct default_branches_ok as [Dnd Dall].
  assert (Hdef : default_branches <> []
                 /\ NoDup default_branches
                 /\ (forall b, In b default_branches ->
                       b <> "" /\ endswith b "/HEAD" = false /\ strip b = b)
                 /\ (default_branches = default_branches
                     \/ exists lines,
                          git = GitCompleted 0 lines
                          /\ forall b, In b default_branches ->
                               exists line,
                                 In line lines /\ b = branch_of_line line)).
  { split; [discriminate|]. split; [exact Dnd|]. split; [exact Dall|].
    left. reflexivity. }
  destruct git as [|returncode lines]; [exact Hdef|].
  unfold get_available_branches.
  destruct (returncode =? 0)%Z eqn:Ec; [|exact Hdef].
  apply Z.eqb_eq in Ec. subst returncode.
  fold (collected_branches lines []).
  destruct (collected_branches_ok lines lines [] (incl_refl lines))
    as [Hnd Hall]; [constructor|intros b []|].
  destruct (collected_branches lines []) as [|b0 bs] eqn:E; [exact Hdef|].
  simpl negb. cbv iota.
  split; [discriminate|]. split; [exact Hnd|]. split.
  - intros b Hb. destruct (Hall b Hb) as (H1 & H2 & line & _ & ->).
    split; [exact H1|]. split; [exact H2|apply branch_of_line_stripped].
  - right. exists lines. split; [reflexivity|].
    intros b Hb. destruct (Hall b Hb) as (_ & _ & H3). exact H3.
Qed.

Lemma get_available_branches_wellformed_witness :
  In "feature/x"
     (get_available_branches
        (GitCompleted 0 ["* main"; "  remotes/origin/feature/x "; ""]))
  /\ "feature/x" <> "" /\ endswith "feature/x" "/HEAD" = false
  /\ strip "feature/x" = "feature/x".
Proof.
  assert (H : In "feature/x"
                (get_available_branches
                   (GitCompleted 0
                      ["* main"; "  remotes/origin/feature/x "; ""])))
    by (right; left; reflexivity).
  split; [exact H|].
  exact (proj1 (proj2 (proj2
           (get_available_branches_wellformed
              (GitCompleted 0 ["* main"; "  remotes/origin/feature/x "; ""]))))
           "feature/x" H).
Defined.

(** * Jobs from the cache or from Jenkins *)



(** X12: a fresh cache is served without Jenkins: the call returns the
    cached jobs and leaves the file alone even when the server cannot be
    reached.  When Jenkins is asked and [get_job_info] raises or returns
    nothing, the call returns no jobs and leaves the file alone.  A forced
    refresh never raises; a call without refresh raises exactly when
    [load_jobs_cache] does. *)
Theorem get_jobs_failures (now later : Z) (w : write_outcome)
    (f : file (jobs_document (list job))) :
  (forall (jobs : list job) (server : jenkins),
      load_jobs_cache (list job) now f = Ok (Some jobs) ->
      get_jobs false now later w server f = Returns (jobs, f))
  /\ (forall (force_refresh : bool) (answer : folder_answer),
         force_refresh = true \/ load_jobs_cache (list job) now f = Ok None ->
         answer = InfoRaises \/ answer = InfoFalsy ->
         get_jobs force_refresh now later w (Connected answer) f
         = Returns ([], f))
  /\ (forall (server : jenkins) (e : pyclass),
         get_jobs true now later w server f <> Raises e)
  /\ (forall (server : jenkins) (e : pyclass),
         get_jobs false now later w server f = Raises e <->
         load_jobs_cache (list job) now f = Raise e).
Proof.
  split; [|split; [|split]].
  - intros jobs server H. unfold get_jobs. simpl negb. cbv iota.
    rewrite H. reflexivity.
  - intros force_refresh answer H Ha. unfold get_jobs.
    assert (E : (match Connected answer with
                 | Unreachable => Exits
                 | Connected InfoRaises => Returns ([], f)
                 | Connected InfoFalsy => Returns ([], f)
                 | Connected (InfoDict jobs) =>
                     Returns
                       (match jobs with Some jobs => jobs | None => [] end,
                        save_jobs_cache (list job) w later
                          match jobs with Some jobs => jobs | None => [] end f)
                 end) = Returns (@nil job, f))
      by (destruct Ha as [->| ->]; reflexivity).
    destruct H as [->|H].
    + simpl negb. cbv iota. exact E.
    + destruct force_refresh; simpl negb; cbv iota; [exact E|].
      rewrite H. exact E.
  - intros server e. unfold get_jobs. simpl negb. cbv iota.
    destruct server as [|[| |jobs]]; discriminate.
  - intros server e. unfold get_jobs. simpl negb. cbv iota.
    destruct (load_jobs_cache (list job) now f) as [[jobs|]|e'].
    + split; discriminate.
    + split; [|discriminate].
      destruct server as [|[| |jobs]]; discriminate.
    + split; intro H; injection H as ->; reflexivity.
Qed.

Lemma get_jobs_failures_witness :
  load_jobs_cache (list job) 7
    (Parsed (JobsDict (Some (NaiveTime 3)) (Some sample_jobs)))
  = Ok (Some sample_jobs)
  /\ get_jobs false 7 9 Refused Unreachable
       (Parsed (JobsDict (Some (NaiveTime 3)) (Some sample_jobs)))
     = Returns (sample_jobs,
                Parsed (JobsDict (Some (NaiveTime 3)) (Some sample_jobs))).
Proof.
  split; [reflexivity|].
  apply (proj1 (get_jobs_failures 7 9 Refused
                  (Parsed (JobsDict (Some (NaiveTime 3)) (Some sample_jobs))))).
  reflexivity.
Defined.

(** X13: after [cache --clear] has removed the job cache file, whatever its
    state was, [load_jobs_cache] returns [None] without raising and
    [get_jobs] does what a forced refresh does; after
    [cache --clear-branches] has removed the branch cache file,
    [load_branch_cache] returns the empty list. *)
Theorem cache_clear_recovers (now later : Z) (w : write_outcome)
    (server : jenkins) (f : file (jobs_document (list job)))
    (fb : file branches_document) :
  load_jobs_cache (list job) now (cache_clear true f) = Ok None
  /\ get_jobs false now later w server (cache_clear true f)
     = get_jobs true now later w server (cache_clear true f)
  /\ load_branch_cache (cache_clear true fb) = Ok [].
Proof.
  assert (Ef : cache_clear true f = Missing) by (destruct f; reflexivity).
  assert (Eb : cache_clear true fb = Missing) by (destruct fb; reflexivity).
  rewrite Ef, Eb. repeat split.
Qed.

(** * The job list *)

Lemma status_map_base (color : string) :
  In (get_or "Unknown" (status_map color)) base_statuses.
Proof.
  unfold status_map, base_statuses.
  repeat (match goal with
          | |- context [String.eqb color ?c] => destruct (String.eqb color c)
          end; [simpl; tauto|]).
  simpl. tauto.
Qed.

(** X14: the status shown for a job is one of "Success", "Failed",
    "Unstable", "Not Built", "Disabled", "Aborted" and "Unknown", followed
    by " (Running)" exactly when the colour contains "_anime"; it is never
    "Folder". *)
Theorem job_status_values (color : string) :
  (str_in "_anime" color = true ->
   exists b, In b base_statuses
             /\ job_status color = (b ++ " (Running)")%string)
  /\ (str_in "_anime" color = false -> In (job_status color) base_statuses)
  /\ job_status color <> "Folder".
Proof.
  assert (H1 : str_in "_anime" color = true ->
               exists b, In b base_statuses
                         /\ job_status color = (b ++ " (Running)")%string).
  { intro H. unfold job_status. rewrite H.
    destruct color as [|c color]; [discriminate|]. simpl negb. simpl andb.
    cbv iota.
    exists (get_or "Unknown"
              (status_map (replace (String c color) "_anime" ""))).
    split; [apply status_map_base|reflexivity]. }
  assert (H2 : str_in "_anime" color = false ->
               In (job_status color) base_statuses).
  { intro H. unfold job_status. rewrite H, andb_false_r.
    apply status_map_base. }
  split; [exact H1|]. split; [exact H2|].
  destruct (str_in "_anime" color) eqn:E.
  - destruct (H1 eq_refl) as (b & Hb & ->).
    unfold base_statuses in Hb. simpl in Hb.
    destruct Hb as [<-|[<-|[<-|[<-|[<-|[<-|[<-|[]]]]]]]]; discriminate.
  - specialize (H2 eq_refl). intro Ef. rewrite Ef in H2.
    unfold base_statuses in H2. simpl in H2.
    destruct H2 as [H|[H|[H|[H|[H|[H|[H|[]]]]]]]]; discriminate.
Qed.

Lemma job_status_values_witness :
  str_in "_anime" "red_anime" = true
  /\ exists b, In b base_statuses
               /\ job_status "red_anime" = (b ++ " (Running)")%string.
Proof.
  split; [reflexivity|].
  apply (proj1 (job_status_values "red_anime")). reflexivity.
Defined.

Lemma filtered_jobs_In (type : option job_type) (jobs : list job) (j : job) :
  In j (filtered_jobs type jobs) <->
  In j jobs
  /\ forall t, type = Some t -> str_in (type_word t) (lower (name j)) = true.
Proof.
  unfold filtered_jobs. rewrite filter_In. destruct type as [t|].
  - split; intros [H1 H2]; split; try exact H1.
    + intros t' E. injection E as <-. exact H2.
    + apply H2. reflexivity.
  - split; intros [H1 H2]; split; try exact H1; [discriminate|reflexivity].
Qed.

(** X15: every row of the fast job list carries the name of a listed job
    whose name contains the type word when a type is given, letter case
    apart; a "Folder" row appears only with [--all]; and with [--all] the
    rows are the filtered jobs, one row each in their order. *)
Theorem fast_rows_jobs (all : bool) (type : option job_type)
    (jobs : list job) :
  (forall row, In row (fast_rows all (filtered_jobs type jobs)) ->
     (exists j, In j jobs /\ fst row = name j
                /\ forall t, type = Some t ->
                     str_in (type_word t) (lower (name j)) = true)
     /\ (snd row = "Folder" -> all = true))
  /\ (all = true ->
      map fst (fast_rows all (filtered_jobs type jobs))
      = map name (filtered_jobs type jobs)).
Proof.
  split.
  - intros row Hrow. unfold fast_rows in Hrow.
    apply in_flat_map in Hrow. destruct Hrow as (j & Hj & Hr).
    apply filtered_jobs_In in Hj. destruct Hj as [Hin Ht].
    destruct (endswith (name j) "/" || String.eqb (color j) "nobuilt").
    + destruct all; [|destruct Hr].
      destruct Hr as [<-|[]]. split; [|reflexivity].
      exists j. auto.
    + destruct Hr as [<-|[]]. split; [exists j; auto|].
      simpl. intro E.
      exfalso. exact (proj2 (proj2 (job_status_values (color j))) E).
  - intros ->. induction (filtered_jobs type jobs) as [|j l IH];
      [reflexivity|].
    simpl. rewrite map_app, IH.
    destruct (endswith (name j) "/" || String.eqb (color j) "nobuilt");
      reflexivity.
Qed.

Lemma fast_rows_jobs_witness :
  true = true
  /\ map fst (fast_rows true (filtered_jobs (Some Scale) sample_jobs))
     = map name (filtered_jobs (Some Scale) sample_jobs).
Proof.
  split; [reflexivity|].
  apply (proj2 (fast_rows_jobs true (Some Scale) sample_jobs)). reflexivity.
Defined.

(** * The status and console commands *)

Lemma plain_job_choice_In (q : string) (M : list job) (j : job) :
  plain_job_choice q M j -> In j M.
Proof.
  intros [j' H|j' _ H|j' _ _ [t ->]];
    try (apply first_passing_In in H; tauto).
  left. reflexivity.
Qed.

Lemma plain_job_choice_functional (q : string) (M : list job) (j j' : job) :
  plain_job_choice q M j -> plain_job_choice q M j' -> j = j'.
Proof.
  intros H H'.
  assert (Hfp : forall test x,
             first_passing test M x ->
             ~ (forall y, In y M -> test y = false)).
  { intros test x Hx Hno. apply first_passing_In in Hx.
    destruct Hx as [Hin Ht]. rewrite (Hno x Hin) in Ht. discriminate. }
  destruct H as [a Ha|a Ha1 Ha|a Ha1 Ha2 Ha];
  destruct H' as [b Hb|b Hb1 Hb|b Hb1 Hb2 Hb];
  try (eapply first_passing_unique; eassumption);
  try (eapply first_of_unique; eassumption);
  try (exfalso; apply (Hfp _ _ Ha); assumption);
  try (exfalso; apply (Hfp _ _ Hb); assumption).
Qed.

Lemma plain_preferred_choice (q : string) (M : list job) :
  M <> [] ->
  exists j,
    item0
      (if negb (list_not (filter (job_is q) M)) then filter (job_is q) M
       else if negb (list_not (filter (job_starts q) M))
       then filter (job_starts q) M
       else M) = Ok j
    /\ plain_job_choice q M j.
Proof.
  intro HM.
  destruct (filter (job_is q) M) as [|j t] eqn:E1; simpl.
  2:{ exists j. split; [reflexivity|].
      apply plain_exact. eapply filter_head_first_passing; eassumption. }
  destruct (filter (job_starts q) M) as [|j t] eqn:E2; simpl.
  2:{ exists j. split; [reflexivity|].
      apply plain_starting; [apply filter_nil_iff; exact E1|].
      eapply filter_head_first_passing; eassumption. }
  destruct M as [|j t]; [congruence|].
  exists j. split; [reflexivity|].
  apply plain_first; try (apply filter_nil_iff; assumption).
  exists t. reflexivity.
Qed.

(** X16: the status and console commands go on with the one job their
    preference order names among the jobs whose name contains the query:
    the first job named like the query, else the first whose name starts
    with the query, else the first candidate, letter case apart; when no
    job contains the query they stop and list all jobs. *)
Theorem status_selected_job_choice (jobs : list job) (q : string) :
  (filter (job_contains q) jobs <> [] ->
   exists j,
     status_selected_job jobs q = Ok (Selected j)
     /\ plain_job_choice q (filter (job_contains q) jobs) j
     /\ forall j', plain_job_choice q (filter (job_contains q) jobs) j' ->
                   j' = j)
  /\ (filter (job_contains q) jobs = [] ->
      status_selected_job jobs q = Ok (NoMatchingJob jobs)).
Proof.
  unfold status_selected_job.
  change (fun job => str_in (lower q) (lower (name job))) with (job_contains q).
  change (fun job => String.eqb (lower (name job)) (lower q)) with (job_is q).
  change (fun job => startswith (lower (name job)) (lower q))
    with (job_starts q).
  cbv zeta.
  split.
  - intro HM.
    destruct (plain_preferred_choice q _ HM) as (j & Hj & Hc).
    assert (Hu : forall j',
               plain_job_choice q (filter (job_contains q) jobs) j' -> j' = j).
    { intros j' Hc'. exact (plain_job_choice_functional _ _ _ _ Hc' Hc). }
    destruct (filter (job_contains q) jobs) as [|m [|m' M']] eqn:EM;
      [congruence| |].
    + exists m. split; [reflexivity|].
      apply plain_job_choice_In in Hc as Hin.
      destruct Hin as [<-|[]]. split; [exact Hc|exact Hu].
    + exists j. split; [|split; [exact Hc|exact Hu]].
      change (list_not (m :: m' :: M')) with false.
      change (1 <? List.length (m :: m' :: M'))%nat with true.
      cbv iota. rewrite Hj. reflexivity.
  - intros ->. reflexivity.
Qed.

Lemma status_selected_job_choice_witness :
  filter (job_contains "scale") sample_jobs <> []
  /\ exists j,
       status_selected_job sample_jobs "scale" = Ok (Selected j)
       /\ plain_job_choice "scale" (filter (job_contains "scale") sample_jobs) j
       /\ forall j',
            plain_job_choice "scale"
              (filter (job_contains "scale") sample_jobs) j' -> j' = j.
Proof.
  split; [discriminate|].
  apply (proj1 (status_selected_job_choice sample_jobs "scale")).
  discriminate.
Defined.

(** * The branch parameter of a build *)






(** * The last lines of the console output *)

(** X18: with [--tail] and [-n lines], [console] shows the last [lines]
    lines when the output has more than [lines] lines and [lines] is
    positive, and leaves the output as it is when it has no more than
    [lines] lines; with [-n 0] on a non-empty output it shows every line. *)
Theorem tail_lines_cases (lines : Z) (console_lines : list string) :
  ((0 < lines < Z.of_nat (List.length console_lines))%Z ->
   exists shown before,
     tail_lines lines console_lines = Some shown
     /\ Z.of_nat (List.length shown) = lines
     /\ console_lines = before ++ shown)
  /\ (lines = 0%Z -> console_lines <> [] ->
      tail_lines lines console_lines = Some console_lines)
  /\ ((Z.of_nat (List.length console_lines) <= lines)%Z ->
      tail_lines lines console_lines = None).
Proof.
  unfold tail_lines, slice_from. split; [|split].
  - intros [H0 Hn].
    assert (Hl : negb (list_not console_lines) = true)
      by (destruct console_lines; [simpl in Hn; lia|reflexivity]).
    rewrite Hl.
    rewrite (proj2 (Z.ltb_lt _ _) Hn).
    rewrite (proj2 (Z.ltb_lt (- lines) 0)) by lia.
    exists (skipn (List.length console_lines - Z.to_nat (- - lines))
                  console_lines),
           (firstn (List.length console_lines - Z.to_nat (- - lines))
                   console_lines).
    split; [reflexivity|]. split.
    + rewrite length_skipn. lia.
    + symmetry. apply firstn_skipn.
  - intros -> Hne.
    destruct console_lines as [|l ls]; [congruence|]. reflexivity.
  - intro H. rewrite (proj2 (Z.ltb_ge _ _) H).
    destruct (negb (list_not console_lines)); reflexivity.
Qed.

Lemma tail_lines_cases_witness :
  (0 < 2 < Z.of_nat (List.length ["a"; "b"; "c"]))%Z
  /\ exists shown before,
       tail_lines 2 ["a"; "b"; "c"] = Some shown
       /\ Z.of_nat (List.length shown) = 2%Z
       /\ ["a"; "b"; "c"] = before ++ shown.
Proof.
  split; [simpl; lia|].
  apply (proj1 (tail_lines_cases 2 ["a"; "b"; "c"])). simpl. lia.
Defined.

(** * Resolving and recording a branch *)

(** The cached tier over a list whose head contains the partial name
    returns the head when the head equals the partial name, or when no other
    element equals it and either no other element contains it, or the head
    starts with it, or no other element that contains it starts with it. *)
Lemma run_cascade_head (p r : string) (t : list string) :
  ci_contains p r = true ->
  ci_equal p r = true
  \/ ((forall y, In y t -> ci_equal p y = false)
      /\ ((forall y, In y t -> ci_contains p y = false)
          \/ ci_startswith p r = true
          \/ (forall y, In y t -> ci_contains p y = true ->
                        ci_startswith p y = false))) ->
  run_cascade p (r :: t) item0 = Ok (Some r).
Proof.
  intros Hr H. unfold run_cascade, substring_matches. cbn [find filter].
  rewrite Hr.
  destruct (ci_equal p r) eqn:Er; [reflexivity|].
  destruct H as [H|[Hne Hc]]; [discriminate|].
  rewrite (proj2 (find_none_iff _ _) Hne).
  destruct (filter (ci_contains p) t) as [|m M] eqn:EM; [reflexivity|].
  change (List.length (r :: m :: M) =? 1)%nat with false. cbv iota.
  cbn [find]. destruct (ci_startswith p r) eqn:Es; [reflexivity|].
  assert (Hin : forall y, In y (m :: M) -> In y t /\ ci_contains p y = true).
  { intros y Hy. rewrite <- EM in Hy. apply filter_In in Hy. exact Hy. }
  assert (Hns : forall y, In y (m :: M) -> ci_startswith p y = false).
  { intros y Hy. destruct (Hin y Hy) as [Hy1 Hy2].
    destruct Hc as [Hc|[Hc|Hc]].
    - rewrite (Hc y Hy1) in Hy2. discriminate.
    - discriminate.
    - exact (Hc y Hy1 Hy2). }
  change (find (ci_startswith p) (m :: M))
    with (if ci_startswith p m then Some m else find (ci_startswith p) M).
  rewrite (Hns m (or_introl eq_refl)).
  rewrite (proj2 (find_none_iff (ci_startswith p) M)); [reflexivity|].
  intros y Hy. apply Hns. right. exact Hy.
Qed.

Lemma touch_tail_In (r y : string) (h : list string) :
  NoDup h -> In y (firstn 49 (remove1 r h)) -> In y h /\ y <> r.
Proof.
  intros Hnd Hy. apply firstn_In_inv in Hy. split.
  - exact (remove1_In r y h Hy).
  - intros ->. apply NoDup_remove1 with (x := r) in Hnd.
    apply NoDup_cons_iff in Hnd. tauto.
Qed.

(** X19: what [build] does with its branch option: the partial name is
    resolved and the branch found is recorded.  On a history without
    duplicates, and for a non-empty partial name resolved to a branch other
    than "dev", the same partial name resolves to the same branch once it
    is recorded. *)
Theorem find_matching_branch_sticky (h available : list string)
    (p r : string) (f : file branches_document) :
  p <> "" -> NoDup h -> load_branch_cache f = Ok h ->
  find_matching_branch h available p = Ok r ->
  lower r <> "dev" ->
  exists f' h',
    add_branch_to_cache Written r f = Ok f'
    /\ load_branch_cache f' = Ok h'
    /\ find_matching_branch h' available p = Ok r.
Proof.
  intros Hp Hnd Hload Hres Hdev.
  exists (save_branch_cache Written (touch r h) f), (touch r h).
  split; [exact (add_branch_to_cache_touch Written r f h Hdev Hload)|].
  split; [exact (load_after_save (touch r h) f h Hload)|].
  rewrite (find_matching_branch_tiers _ available p Hp), touch_cons.
  assert (Htail := touch_tail_In r).
  enough (Hhead : ci_contains p r = true
                  /\ (ci_equal p r = true
                      \/ ((forall y, In y (firstn 49 (remove1 r h)) ->
                                     ci_equal p y = false)
                          /\ ((forall y, In y (firstn 49 (remove1 r h)) ->
                                         ci_contains p y = false)
                              \/ ci_startswith p r = true
                              \/ (forall y, In y (firstn 49 (remove1 r h)) ->
                                    ci_contains p y = true ->
                                    ci_startswith p y = false))))).
  { destruct Hhead as [H1 H2].
    rewrite (run_cascade_head p r _ H1 H2). reflexivity. }
  destruct (find_matching_branch_runs h available p Hp)
    as (o1 & o2 & C1 & C2 & E).
  rewrite E in Hres. injection Hres as Hr.
  destruct o1 as [b|].
  - subst b.
    split; [exact (proj2 (cascade_sound _ _ _ _ (@first_of_In string) C1))|].
    inversion C1 as [c Hc|c Hno Hu|c Hno _ Hs|c Hno _ Hns _|]; subst.
    + left. apply first_passing_In in Hc. tauto.
    + right. split.
      * intros y Hy. apply Hno. exact (proj1 (Htail y h Hnd Hy)).
      * left. intros y Hy. destruct (Htail y h Hnd Hy) as [Hin Hne].
        destruct (ci_contains p y) eqn:Ey; [|reflexivity].
        exfalso. apply Hne.
        assert (Hm : In y (substring_matches p h))
          by (apply filter_In; split; assumption).
        rewrite Hu in Hm. destruct Hm as [<-|[]]. reflexivity.
    + right. split.
      * intros y Hy. apply Hno. exact (proj1 (Htail y h Hnd Hy)).
      * right. left. apply first_passing_In in Hs. tauto.
    + right. split.
      * intros y Hy. apply Hno. exact (proj1 (Htail y h Hnd Hy)).
      * right. right. intros y Hy Ey. apply Hns.
        apply filter_In. split; [exact (proj1 (Htail y h Hnd Hy))|exact Ey].
  - assert (Hno := cascade_none _ _ _ C1).
    assert (Hnc : forall y, In y (firstn 49 (remove1 r h)) ->
                            ci_contains p y = false).
    { intros y Hy. apply Hno. exact (proj1 (Htail y h Hnd Hy)). }
    split.
    + destruct o2 as [b|]; subst r.
      * exact (proj2 (cascade_sound _ _ _ _ shortest_first_In C2)).
      * unfold ci_contains. apply str_in_refl.
    + right. split; [|left; exact Hnc].
      intros y Hy. destruct (ci_equal p y) eqn:Ey; [|reflexivity].
      apply ci_equal_contains in Ey. rewrite (Hnc y Hy) in Ey. discriminate.
Qed.

Lemma find_matching_branch_sticky_witness :
  "fix" <> "" /\ NoDup ["main"; "fix/b"; "fix/a"]
  /\ load_branch_cache (Parsed (BranchesDict (Some ["main"; "fix/b"; "fix/a"])))
     = Ok ["main"; "fix/b"; "fix/a"]
  /\ find_matching_branch ["main"; "fix/b"; "fix/a"] default_branches "fix"
     = Ok "fix/b"
  /\ lower "fix/b" <> "dev"
  /\ exists f' h',
       add_branch_to_cache Written "fix/b"
         (Parsed (BranchesDict (Some ["main"; "fix/b"; "fix/a"]))) = Ok f'
       /\ load_branch_cache f' = Ok h'
       /\ find_matching_branch h' default_branches "fix" = Ok "fix/b".
Proof.
  assert (Hnd : NoDup ["main"; "fix/b"; "fix/a"])
    by (apply distinct_NoDup; reflexivity).
  split; [discriminate|]. split; [exact Hnd|]. split; [reflexivity|].
  split; [reflexivity|]. split; [discriminate|].
  apply (find_matching_branch_sticky ["main"; "fix/b"; "fix/a"]
           default_branches "fix" "fix/b"
           (Parsed (BranchesDict (Some ["main"; "fix/b"; "fix/a"]))));
    try discriminate; try reflexivity; exact Hnd.
Defined.

(** * Branch mode with its two calls *)


(** An exception of the git call that the handler does not name leaves the
    function when no cached branch contains the partial name. *)
Lemma find_matching_branch_call_git_raises (f : file branches_document)
    (e : pyclass) (cached : list string) (p : string) :
  get_cached_branches f = Ok cached -> p <> "" ->
  (forall b, In b cached -> ci_contains p b = false) ->
  find_matching_branch_call f (GitRaises e) p = Raise e.
Proof.
  intros Hc Hp Hno. unfold find_matching_branch_call.
  rewrite Hc. cbn [bind]. rewrite (str_not_false p Hp).
  change (fun branch => String.eqb (lower branch) (lower p)) with (ci_equal p).
  change (fun branch => str_in (lower p) (lower branch)) with (ci_contains p).
  assert (F : find (ci_equal p) cached = None).
  { apply find_none_iff. intros y Hy.
    destruct (ci_equal p y) eqn:E; [|reflexivity].
    apply ci_equal_contains in E. rewrite (Hno y Hy) in E. discriminate. }
  rewrite F, (proj2 (filter_nil_iff _ cached) Hno). reflexivity.
Qed.

(** C6: [find_matching_branch] reads the branch cache before anything
    else, and [load_branch_cache] lets through what its handler does not
    name.  With a branch cache file that holds JSON other than a
    dictionary, or that cannot be opened, the call raises for every partial
    name, the empty one included, instead of returning a branch. *)
Theorem find_matching_branch_call_raises (g : git_call)
    (partial_name : string) :
  find_matching_branch_call (Parsed BranchesNotDict) g partial_name
  = Raise AttributeError
  /\ find_matching_branch_call Unreadable g partial_name = Raise OSError
  /\ find_matching_branch_call (Parsed BranchesNotDict) g "" <> Ok "dev".
Proof. repeat split. discriminate. Qed.


